(** * useForm: validation and form-state engine

    A shallow embedding of the [useForm] hook (validation rules, the four
    state cells, the debounce timer and the submit wrapper) together with
    the properties its specification states about it.

    Modelling conventions.
    - A form value ([any] in the source) is a [jsval]: the primitives a form
      control produces, arrays, and a plain object.  Numbers are the
      integer-valued ones plus [NaN]; strings are sequences of code units.
    - The props [initialValues], [validationRules] and [debounceTime] are
      fixed for the life of one hook instance (Section variables), so the
      memoised closures, and with them the one [debounceTimer] variable
      created by [debounce], are the same on every render.
    - The runtime keeps every pending timeout until it fires or is
      cleared; [debounceTimer] holds only the handle of the last one set.
      Time is discrete, and timeouts that are due fire in the order of
      their deadlines, those with equal deadlines in the order they were
      set.
    - [useState] setters act at once on the state record; an [async]
      function runs to completion when it is called, its rejection being
      the [Throw] outcome.  State written before a throw stays written.
    - [validationRules] is an association list in [for ... in] order; field
      names are own properties, none of them inherited from
      [Object.prototype].
    - A pattern is the set of strings its RegExp matches: a RegExp without
      the [g] and [y] flags, whose [test] keeps no state between calls.
    - [trace] is a ghost log of the calls that leave or enter the engine:
      each entry into [validateField], each call of the submit callback and
      each [event.preventDefault()]. *)

From Stdlib Require Import ZArith Ascii String List Bool Lia.
From stdpp Require Import gmap strings list fin_maps pretty.

Open Scope string_scope.

(** ** Values *)

Inductive jsnum : Type :=
| Int (z : Z)
| NaN.

#[warnings="-register-all"]
Inductive jsval : Type :=
| JUndefined
| JNull
| JBool (b : bool)
| JNum (n : jsnum)
| JStr (s : string)
| JArr (elems : list jsval)
| JObj.

(** [!!value] *)
Definition truthy (v : jsval) : bool :=
  match v with
  | JUndefined | JNull => false
  | JBool b => b
  | JNum (Int z) => negb (z =? 0)%Z
  | JNum NaN => false
  | JStr s => negb (String.eqb s "")
  | JArr _ | JObj => true
  end.

Definition falsy (v : jsval) : bool := negb (truthy v).

(** [null] and [undefined], the two values a property cannot be read from. *)
Definition nullish (v : jsval) : bool :=
  match v with
  | JUndefined | JNull => true
  | _ => false
  end.

(** The abstract operation ToString, as [RegExp.prototype.test] applies it
    to its argument. *)
Fixpoint ToString (v : jsval) : string :=
  match v with
  | JUndefined => "undefined"
  | JNull => "null"
  | JBool true => "true"
  | JBool false => "false"
  | JNum (Int z) => pretty z
  | JNum NaN => "NaN"
  | JStr s => s
  | JArr elems =>
      String.concat ","
        (map (fun e => match e with
                       | JUndefined | JNull => ""
                       | _ => ToString e
                       end) elems)
  | JObj => "[object Object]"
  end.

(** ** Outcomes *)

Inductive exn : Type :=
| TypeError            (* reading a property of null or undefined *)
| Rejected (why : string).  (* thrown or rejected by user code *)

Inductive result (A : Type) : Type :=
| Ok (a : A)
| Throw (e : exn).
Arguments Ok {A} a.
Arguments Throw {A} e.

Definition returns {A} (r : result A) : bool :=
  match r with Ok _ => true | Throw _ => false end.

#[global] Instance result_ret : MRet result := fun A a => Ok a.
#[global] Instance result_bind : MBind result := fun A B k r =>
  match r with
  | Ok a => k a
  | Throw e => Throw e
  end.

(** [value.length]: a TypeError on null and undefined, the length of a
    string or an array, [undefined] ([None]) on everything else. *)
Definition get_length (v : jsval) : result (option nat) :=
  match v with
  | JUndefined | JNull => Throw TypeError
  | JStr s => Ok (Some (String.length s))
  | JArr elems => Ok (Some (length elems))
  | JBool _ | JNum _ | JObj => Ok None
  end.

(** [len < n] and [len > n] on numbers; a comparison with [undefined] or
    [NaN] on either side is false. *)
Definition js_lt (len : option nat) (n : jsnum) : bool :=
  match len, n with
  | Some l, Int z => (Z.of_nat l <? z)%Z
  | _, _ => false
  end.

Definition js_gt (len : option nat) (n : jsnum) : bool :=
  match len, n with
  | Some l, Int z => (z <? Z.of_nat l)%Z
  | _, _ => false
  end.

(** ** Validation rules *)

Record LengthRule : Type := {
  length_value : jsnum;
  length_message : string
}.

Record PatternRule : Type := {
  pattern_value : string -> bool;     (* the language of the RegExp *)
  pattern_message : string
}.

Record CustomRule : Type := {
  validate : jsval -> result bool;    (* awaited; may reject *)
  custom_message : string
}.

Record ValidationRule : Type := {
  required : option string;
  minLength : option LengthRule;
  maxLength : option LengthRule;
  pattern : option PatternRule;
  custom : option CustomRule
}.

Definition ValidationRules : Type := list (string * ValidationRule).

(** [validationRules[name]] *)
Fixpoint rules_for (vr : ValidationRules) (name : string)
  : option ValidationRule :=
  match vr with
  | [] => None
  | (k, r) :: rest => if String.eqb k name then Some r else rules_for rest name
  end.

(** [rules.required && !value]: the message itself is the guard, so an
    empty message reads as no rule. *)
Definition has_required (rules : ValidationRule) : bool :=
  match required rules with
  | Some msg => negb (String.eqb msg "")
  | None => false
  end.

Definition required_fails (rules : ValidationRule) (value : jsval) : bool :=
  has_required rules && negb (truthy value).

(** [rules.minLength && value.length < rules.minLength.value] *)
Definition minLength_fails (rules : ValidationRule) (value : jsval)
  : result bool :=
  match minLength rules with
  | Some r => len ← get_length value; mret (js_lt len (length_value r))
  | None => mret false
  end.

(** [rules.maxLength && value.length > rules.maxLength.value] *)
Definition maxLength_fails (rules : ValidationRule) (value : jsval)
  : result bool :=
  match maxLength rules with
  | Some r => len ← get_length value; mret (js_gt len (length_value r))
  | None => mret false
  end.

(** [rules.pattern && !rules.pattern.value.test(value)] *)
Definition pattern_fails (rules : ValidationRule) (value : jsval) : bool :=
  match pattern rules with
  | Some r => negb (pattern_value r (ToString value))
  | None => false
  end.

Definition message_of {R} (msg : R -> string) (o : option R) : string :=
  match o with
  | Some r => msg r
  | None => ""
  end.

(** The [if (rules) { if ... else if ... }] block that computes [error];
    [validateField] and [validateForm] carry the same text. *)
Definition check_rules (rules : option ValidationRule) (value : jsval)
  : result string :=
  match rules with
  | None => mret ""
  | Some rules =>
      if required_fails rules value then
        mret (message_of id (required rules))
      else
        short ← minLength_fails rules value;
        if (short : bool) then
          mret (message_of length_message (minLength rules))
        else
          long ← maxLength_fails rules value;
          if (long : bool) then
            mret (message_of length_message (maxLength rules))
          else if pattern_fails rules value then
            mret (message_of pattern_message (pattern rules))
          else
            match custom rules with
            | Some c =>
                isValid ← validate c value;
                mret (if (isValid : bool) then "" else custom_message c)
            | None => mret ""
            end
  end.

(** ** The hook's state *)

Inductive effect : Type :=
| FieldValidation (name : string) (value : jsval)  (* validateField entered *)
| PreventDefault                                   (* event.preventDefault() *)
| SubmitCallback (vals : gmap string jsval).       (* callback(values) *)

(** A timeout the runtime holds: the handle [setTimeout] returned for it,
    the time it is due, and the arguments its callback
    [() => func(...args)] passes on. *)
Record timeout : Type := {
  timeout_id : nat;
  timeout_due : nat;
  timeout_args : string * jsval
}.

Record Hook : Type := {
  values : gmap string jsval;
  errors : gmap string string;
  isSubmitting : bool;
  isValidating : bool;
  (* [debounceTimer] of the one [debounce] closure: the handle of the
     timeout set last, [undefined] before the first call *)
  debounceTimer : option nat;
  (* the runtime: the timeouts still pending, in the order they were
     set, the handle the next one gets, and the time *)
  timers : list timeout;
  nextTimer : nat;
  clock : nat;
  trace : list effect
}.

(** A computation over the hook: its outcome and the state it leaves. *)
Definition M (A : Type) : Type := Hook -> result A * Hook.

#[global] Instance M_ret : MRet M := fun A a h => (Ok a, h).
#[global] Instance M_bind : MBind M := fun A B k m h =>
  match m h with
  | (Ok a, h') => k a h'
  | (Throw e, h') => (Throw e, h')
  end.

(** An outcome computed without touching the state. *)
Definition lift {A} (r : result A) : M A := fun h => (r, h).

Definition modify (f : Hook -> Hook) : M unit := fun h => (Ok tt, f h).

Definition with_values (f : gmap string jsval -> gmap string jsval) (h : Hook)
  : Hook :=
  {| values := f (values h); errors := errors h;
     isSubmitting := isSubmitting h; isValidating := isValidating h;
     debounceTimer := debounceTimer h; timers := timers h;
     nextTimer := nextTimer h; clock := clock h; trace := trace h |}.

Definition with_errors (f : gmap string string -> gmap string string)
  (h : Hook) : Hook :=
  {| values := values h; errors := f (errors h);
     isSubmitting := isSubmitting h; isValidating := isValidating h;
     debounceTimer := debounceTimer h; timers := timers h;
     nextTimer := nextTimer h; clock := clock h; trace := trace h |}.

Definition with_isSubmitting (b : bool) (h : Hook) : Hook :=
  {| values := values h; errors := errors h;
     isSubmitting := b; isValidating := isValidating h;
     debounceTimer := debounceTimer h; timers := timers h;
     nextTimer := nextTimer h; clock := clock h; trace := trace h |}.

Definition with_isValidating (b : bool) (h : Hook) : Hook :=
  {| values := values h; errors := errors h;
     isSubmitting := isSubmitting h; isValidating := b;
     debounceTimer := debounceTimer h; timers := timers h;
     nextTimer := nextTimer h; clock := clock h; trace := trace h |}.

Definition with_debounceTimer (handle : option nat) (h : Hook) : Hook :=
  {| values := values h; errors := errors h;
     isSubmitting := isSubmitting h; isValidating := isValidating h;
     debounceTimer := handle; timers := timers h;
     nextTimer := nextTimer h; clock := clock h; trace := trace h |}.

Definition with_timers (pending : list timeout) (h : Hook) : Hook :=
  {| values := values h; errors := errors h;
     isSubmitting := isSubmitting h; isValidating := isValidating h;
     debounceTimer := debounceTimer h; timers := pending;
     nextTimer := nextTimer h; clock := clock h; trace := trace h |}.

Definition with_nextTimer (id : nat) (h : Hook) : Hook :=
  {| values := values h; errors := errors h;
     isSubmitting := isSubmitting h; isValidating := isValidating h;
     debounceTimer := debounceTimer h; timers := timers h;
     nextTimer := id; clock := clock h; trace := trace h |}.

Definition with_clock (t : nat) (h : Hook) : Hook :=
  {| values := values h; errors := errors h;
     isSubmitting := isSubmitting h; isValidating := isValidating h;
     debounceTimer := debounceTimer h; timers := timers h;
     nextTimer := nextTimer h; clock := t; trace := trace h |}.

Definition with_effect (e : effect) (h : Hook) : Hook :=
  {| values := values h; errors := errors h;
     isSubmitting := isSubmitting h; isValidating := isValidating h;
     debounceTimer := debounceTimer h; timers := timers h;
     nextTimer := nextTimer h; clock := clock h;
     trace := trace h ++ [e] |}.

(** The setters returned by [useState], with a value or with an updater. *)
Definition setValues (f : gmap string jsval -> gmap string jsval) : M unit :=
  modify (with_values f).
Definition setErrors (f : gmap string string -> gmap string string) : M unit :=
  modify (with_errors f).
Definition setIsSubmitting (b : bool) : M unit := modify (with_isSubmitting b).
Definition setIsValidating (b : bool) : M unit := modify (with_isValidating b).
Definition emit (e : effect) : M unit := modify (with_effect e).

(** [clearTimeout(handle)]: the runtime drops the pending timeout with
    that handle.  [undefined], and the handle of a timeout that has fired
    or was cleared before, drop nothing. *)
Definition clearTimeout (handle : option nat) : M unit :=
  modify (fun h =>
    match handle with
    | Some id =>
        with_timers
          (List.filter (fun t => negb (Nat.eqb (timeout_id t) id)) (timers h))
          h
    | None => h
    end).

(** [setTimeout(() => func(...args), delay)]: the runtime adds a timeout
    due [delay] from now, beside those already pending, and returns its
    handle. *)
Definition setTimeout (args : string * jsval) (delay : nat) : M nat :=
  fun h =>
    let id := nextTimer h in
    (Ok id,
     with_nextTimer (S id)
       (with_timers
          (timers h ++
           [{| timeout_id := id; timeout_due := clock h + delay;
               timeout_args := args |}])
          h)).

(** The function [debounce(func, delay)] returns, for the one [func] the
    hook debounces, [validateField]: it clears the timeout whose handle
    [debounceTimer] holds, sets a new one, and keeps the new handle. *)
Definition debounce (delay : nat) (name : string) (value : jsval) : M unit :=
  fun h =>
    (clearTimeout (debounceTimer h);;
     id ← setTimeout (name, value) delay;
     modify (with_debounceTimer (Some id))) h.

(** The order in which due timeouts fire: by deadline, and by the order
    they were set among equal deadlines. *)
Fixpoint insert_timeout (t : timeout) (queue : list timeout) : list timeout :=
  match queue with
  | [] => [t]
  | u :: rest =>
      if (timeout_due t <? timeout_due u)%nat
      then t :: u :: rest
      else u :: insert_timeout t rest
  end.

Definition by_deadline (pending : list timeout) : list timeout :=
  fold_left (fun queue t => insert_timeout t queue) pending [].

Definition is_due (now : nat) (t : timeout) : bool :=
  (timeout_due t <=? now)%nat.

(** [values[name]]: a missing property reads as [undefined]. *)
Definition get_value (vals : gmap string jsval) (name : string) : jsval :=
  default JUndefined (vals !! name).

(** ** The engine *)

Section useForm.

Variable initialValues : gmap string jsval.
Variable validationRules : ValidationRules.
Variable debounceTime : nat.

Definition validateField (name : string) (value : jsval) : M unit :=
  emit (FieldValidation name value);;
  error ← lift (check_rules (rules_for validationRules name) value);
  setErrors (fun prevErrors => <[name := error]> prevErrors).

Definition debouncedValidateField : string -> jsval -> M unit :=
  debounce debounceTime.

Definition handleChange (name : string) (value : jsval) : M unit :=
  setValues (fun prevValues => <[name := value]> prevValues);;
  debouncedValidateField name value.

(** The body of [for (const name in validationRules)], over the keys
    still to be visited, with [newErrors] threaded through. *)
Fixpoint validateForm_loop (names : list string)
  (vals : gmap string jsval) (newErrors : gmap string string)
  : result (gmap string string) :=
  match names with
  | [] => mret newErrors
  | name :: rest =>
      let value := get_value vals name in
      error ← check_rules (rules_for validationRules name) value;
      validateForm_loop rest vals
        (if String.eqb error "" then newErrors
         else <[name := error]> newErrors)
  end.

Definition validateForm (vals : gmap string jsval) : M bool :=
  setIsValidating true;;
  newErrors ← lift (validateForm_loop (map fst validationRules) vals ∅);
  setErrors (fun _ => newErrors);;
  setIsValidating false;;
  mret (Nat.eqb (size newErrors) 0).

(** The handler [handleSubmit(callback)] returns, run on one event.  It
    closes over [values] of the render it was created in, here the
    current ones. *)
Definition handleSubmit (callback : gmap string jsval -> result unit)
  : M unit :=
  fun h =>
    let vals := values h in
    (emit PreventDefault;;
     setIsSubmitting true;;
     valid ← validateForm vals;
     (if (valid : bool)
      then emit (SubmitCallback vals);; lift (callback vals)
      else mret tt);;
     setIsSubmitting false) h.

Definition resetForm : M unit :=
  setValues (fun _ => initialValues);;
  setErrors (fun _ => ∅).

(** The timer callback [() => func(...args)]: the promise [validateField]
    returns is dropped, so a rejection goes nowhere. *)
Definition fire (t : timeout) (h : Hook) : Hook :=
  snd (validateField (fst (timeout_args t)) (snd (timeout_args t)) h).

Definition fire_all (due : list timeout) (h : Hook) : Hook :=
  fold_left (fun h t => fire t h) due h.

(** The event loop runs for [dt] time units: every pending timeout whose
    deadline is reached leaves the runtime and fires, once, in the order
    of the deadlines. *)
Definition advance (dt : nat) (h : Hook) : Hook :=
  let now := clock h + dt in
  let due := by_deadline (List.filter (is_due now) (timers h)) in
  let pending := List.filter (fun t => negb (is_due now t)) (timers h) in
  fire_all due (with_timers pending (with_clock now h)).

End useForm.

(** The state a computation leaves, whatever its outcome. *)
Definition exec {A} (m : M A) (h : Hook) : Hook := snd (m h).

(** ** The specification's reading of a rule set *)

(** The five checks a rule set can carry, in the order of evaluation. *)
Inductive check : Type :=
| Required
| MinLength
| MaxLength
| Pattern
| Custom.

Definition rank (c : check) : nat :=
  match c with
  | Required => 0
  | MinLength => 1
  | MaxLength => 2
  | Pattern => 3
  | Custom => 4
  end.

(** Whether [value] fails check [c] of [rules], taken on its own: the
    guard of the check's branch in the chain.  A check the rule set does
    not carry never fails. *)
Definition verdict (rules : ValidationRule) (c : check) (value : jsval)
  : result bool :=
  match c with
  | Required => mret (required_fails rules value)
  | MinLength => minLength_fails rules value
  | MaxLength => maxLength_fails rules value
  | Pattern => mret (pattern_fails rules value)
  | Custom =>
      match custom rules with
      | Some r => isValid ← validate r value; mret (negb isValid)
      | None => mret false
      end
  end.

Definition message (rules : ValidationRule) (c : check) : string :=
  match c with
  | Required => message_of id (required rules)
  | MinLength => message_of length_message (minLength rules)
  | MaxLength => message_of length_message (maxLength rules)
  | Pattern => message_of pattern_message (pattern rules)
  | Custom => message_of custom_message (custom rules)
  end.

(** [reports rules value msg]: evaluating the checks in order and stopping
    at the first one that fails gives [msg]; no failing check, or no rule
    set at all, gives the empty message. *)
Inductive reports : option ValidationRule -> jsval -> string -> Prop :=
| reports_no_rules value :
    reports None value ""
| reports_first_failing rules value c :
    verdict rules c value = Ok true ->
    (forall c', rank c' < rank c -> verdict rules c' value = Ok false) ->
    reports (Some rules) value (message rules c)
| reports_all_pass rules value :
    (forall c, verdict rules c value = Ok false) ->
    reports (Some rules) value "".

(** Some check raises [e] on [value] and every check before it passes. *)
Definition raises (rules : ValidationRule) (value : jsval) (e : exn) : Prop :=
  exists c, verdict rules c value = Throw e /\
            forall c', rank c' < rank c -> verdict rules c' value = Ok false.

(** [value.length] cannot be read: the value is null or undefined, the
    field has a length rule, and no required message stops the chain
    before it. *)
Definition has_length_rule (rules : ValidationRule) : bool :=
  match minLength rules, maxLength rules with
  | None, None => false
  | _, _ => true
  end.

Definition length_unreadable (rules : option ValidationRule) (value : jsval)
  : bool :=
  match rules with
  | Some r => nullish value && negb (has_required r) && has_length_rule r
  | None => false
  end.

(** The custom validator of the rule set, if there is one, returns
    normally on [value]. *)
Definition custom_returns (rules : option ValidationRule) (value : jsval)
  : Prop :=
  forall r c, rules = Some r -> custom r = Some c ->
    returns (validate c value) = true.

(** ** The form as a whole *)

(** Evaluating the rules of field [name] on its entry in [vals] gives
    [msg]; a field without an entry is evaluated on [undefined]. *)
Definition field_reports (validationRules : ValidationRules)
  (vals : gmap string jsval) (name : string) (msg : string) : Prop :=
  reports (rules_for validationRules name) (get_value vals name) msg.

(** Entries of the accumulator of [validateForm]'s loop agree with the
    evaluation of their field. *)
Definition sound (validationRules : ValidationRules)
  (vals : gmap string jsval) (acc : gmap string string) : Prop :=
  forall name msg, acc !! name = Some msg ->
    field_reports validationRules vals name msg /\ msg <> "".

(** Whether a submit handler runs to its end: validation returns, and the
    callback, when validation lets it run, returns too. *)
Definition submit_completes (validationRules : ValidationRules)
  (callback : gmap string jsval -> result unit) (h : Hook) : bool :=
  match fst (validateForm validationRules (values h) h) with
  | Ok true => returns (callback (values h))
  | Ok false => true
  | Throw _ => false
  end.

(** No timeout is pending but the one whose handle [debounceTimer]
    holds. *)
Definition tidy (h : Hook) : Prop :=
  match timers h with
  | [] => True
  | [t] => debounceTimer h = Some (timeout_id t)
  | _ => False
  end.

(** ** Bursts of change events *)

(** A [handleChange] arriving [gap] time units after the previous event. *)
Record change : Type := {
  gap : nat;
  field : string;
  input : jsval
}.

Section bursts.

Variable validationRules : ValidationRules.
Variable debounceTime : nat.

(** One timeout is pending, that of the latest call: it carries the
    call's arguments, is due one full delay from now, and
    [debounceTimer] holds its handle. *)
Definition armed (name : string) (value : jsval) (h : Hook) : Prop :=
  exists id,
    timers h = [{| timeout_id := id; timeout_due := clock h + debounceTime;
                   timeout_args := (name, value) |}] /\
    debounceTimer h = Some id.

(** The timeout a call with these arguments sets on state [h]. *)
Definition timeout_of (name : string) (value : jsval) (h : Hook) : timeout :=
  {| timeout_id := nextTimer h; timeout_due := clock h + debounceTime;
     timeout_args := (name, value) |}.





End bursts.

(** ** The field adapter *)

(** What [React.ReactNode] can be: a primitive, or an element, named here
    by a label. *)
Inductive ReactNode : Type :=
| Primitive (v : jsval)
| ElementNode (label : string).

Definition truthy_node (n : ReactNode) : bool :=
  match n with
  | Primitive v => truthy v
  | ElementNode _ => true
  end.

(** A change event [e], of which the adapter reads [e.target.value]. *)
Record ChangeEvent : Type := {
  target_value : jsval
}.

(** The props the wrapped component takes besides the pass-through ones;
    [showErrorInline] defaults to false and an omitted
    [customErrorComponent] is [undefined]. *)
Record FormFieldProps : Type := {
  field_name : string;
  field_value : jsval;
  onChange : ChangeEvent -> result unit;
  showErrorInline : bool;
  customErrorComponent : ReactNode
}.

(** What is rendered after the component: the custom node, the red
    [span] with its left margin, or the red [div]. *)
Inductive error_indicator : Type :=
| CustomError (node : ReactNode)
| InlineError (text : string)
| BlockError (text : string).

(** [{errors[name] && (<>...</>)}]: nothing for a missing or empty
    message, else the ternary over [customErrorComponent] and
    [showErrorInline]. *)
Definition render_error (errs : gmap string string) (props : FormFieldProps)
  : option error_indicator :=
  match errs !! field_name props with
  | None => None
  | Some text =>
      if String.eqb text "" then None
      else if truthy_node (customErrorComponent props)
           then Some (CustomError (customErrorComponent props))
           else if showErrorInline props
                then Some (InlineError text)
                else Some (BlockError text)
  end.

(** [handleComponentChange]: the caller's [onChange(e)] first, then the
    hook's [handleChange(name, e.target.value)]. *)
Definition handleComponentChange (debounceTime : nat) (props : FormFieldProps)
  (e : ChangeEvent) : M unit :=
  lift (onChange props e);;
  handleChange debounceTime (field_name props) (target_value e).

(** ** Sequences of calls on one hook *)

(** The calls a user of the hook can make on what [useForm] returns, and
    the passing of time. *)
Inductive action : Type :=
| Change (name : string) (value : jsval)
| Validate (name : string) (value : jsval)
| Submit (callback : gmap string jsval -> result unit)
| Reset
| Wait (dt : nat).

Section actions.

Variable initialValues : gmap string jsval.
Variable validationRules : ValidationRules.
Variable debounceTime : nat.

Definition perform (a : action) : M unit :=
  match a with
  | Change name value => handleChange debounceTime name value
  | Validate name value => validateField validationRules name value
  | Submit callback => handleSubmit validationRules callback
  | Reset => resetForm initialValues
  | Wait dt => modify (advance validationRules dt)
  end.

(** Each call is its own event: a rejected one leaves the state it has
    reached, and the next one starts from there. *)
Fixpoint run (acts : list action) (h : Hook) : Hook :=
  match acts with
  | [] => h
  | a :: rest => run rest (exec (perform a) h)
  end.

(** No call of the sequence is rejected. *)
Fixpoint all_return (acts : list action) (h : Hook) : Prop :=
  match acts with
  | [] => True
  | a :: rest =>
      fst (perform a h) = Ok tt /\ all_return rest (exec (perform a) h)
  end.

End actions.

Definition is_submit (a : action) : bool :=
  match a with
  | Submit _ => true
  | _ => false
  end.

(** Every non-empty message of [errs] is one the rule set configures
    for the field it is recorded under. *)
Definition configured (validationRules : ValidationRules)
  (errs : gmap string string) : Prop :=
  forall name msg, errs !! name = Some msg -> msg <> "" ->
    exists rules c,
      rules_for validationRules name = Some rules /\ message rules c = msg.

(** The [values] a sequence of calls leads to from [vals], read off its
    changes and resets alone. *)
Fixpoint replay (initialValues : gmap string jsval) (acts : list action)
  (vals : gmap string jsval) : gmap string jsval :=
  match acts with
  | [] => vals
  | Change name value :: rest =>
      replay initialValues rest (<[name := value]> vals)
  | Reset :: rest => replay initialValues rest initialValues
  | _ :: rest => replay initialValues rest vals
  end.

(** ** Values without a length *)

(** Booleans, numbers and plain objects: [value.length] is [undefined]. *)
Definition lengthless (v : jsval) : bool :=
  match v with
  | JBool _ | JNum _ | JObj => true
  | _ => false
  end.

(** The rule set with its [minLength] and [maxLength] taken out. *)
Definition without_length_rules (rules : ValidationRule) : ValidationRule :=
  {| required := required rules; minLength := None; maxLength := None;
     pattern := pattern rules; custom := custom rules |}.

(** ** Sample configurations *)

(** The state of a freshly mounted hook. *)
Definition mount (initialValues : gmap string jsval) : Hook :=
  {| values := initialValues; errors := ∅;
     isSubmitting := false; isValidating := false;
     debounceTimer := None; timers := []; nextTimer := 0;
     clock := 0; trace := [] |}.

Definition is_digit (a : ascii) : bool :=
  (48 <=? nat_of_ascii a)%nat && (nat_of_ascii a <=? 57)%nat.

(** The language of [/^[0-9]+$/]. *)
Definition digits (s : string) : bool :=
  negb (String.eqb s "") && forallb is_digit (list_ascii_of_string s).

(** [{ maxLength: { value: 10, message: 'Too long' } }] *)
Definition bio_rules : ValidationRule :=
  {| required := None; minLength := None;
     maxLength := Some {| length_value := Int 10; length_message := "Too long" |};
     pattern := None; custom := None |}.

(** [{ minLength: { value: 3, message: 'Too short' } }] *)
Definition nickname_rules : ValidationRule :=
  {| required := None;
     minLength := Some {| length_value := Int 3; length_message := "Too short" |};
     maxLength := None; pattern := None; custom := None |}.

(** [{ required: '', minLength: { value: 3, message: 'Too short' } }] *)
Definition blank_required_rules : ValidationRule :=
  {| required := Some "";
     minLength := Some {| length_value := Int 3; length_message := "Too short" |};
     maxLength := None; pattern := None; custom := None |}.

(** [{ minLength: { value: 3, message: 'Too short' },
       pattern: { value: /^[0-9]+$/, message: 'Digits only' } }] *)
Definition pin_rules : ValidationRule :=
  {| required := None;
     minLength := Some {| length_value := Int 3; length_message := "Too short" |};
     maxLength := None;
     pattern := Some {| pattern_value := digits; pattern_message := "Digits only" |};
     custom := None |}.

(** The [age] rules of the test suite, the validator [value >= 18] taken
    on numbers. *)
Definition age_rules : ValidationRule :=
  {| required := Some "Age is required";
     minLength := None; maxLength := None; pattern := None;
     custom := Some {|
       validate := fun v =>
         match v with
         | JNum (Int z) => Ok (18 <=? z)%Z
         | _ => Ok false
         end;
       custom_message := "You must be at least 18 years old" |} |}.

(** The [username] rules of the test suite. *)
Definition username_rules : ValidationRule :=
  {| required := Some "Username is required";
     minLength := Some {| length_value := Int 3;
                          length_message := "Username must be at least 3 characters" |};
     maxLength := None; pattern := None;
     custom := Some {|
       validate := fun v =>
         match v with
         | JStr s => Ok (negb (String.eqb s "taken"))
         | _ => Ok true
         end;
       custom_message := "Username is already taken" |} |}.

(** A submit callback that returns, and one that throws. *)
Definition accept (vals : gmap string jsval) : result unit := Ok tt.
Definition refuse (vals : gmap string jsval) : result unit :=
  Throw (Rejected "submit failed").

(** ** The rule chain *)

(** Unfolds the binds and returns of [result] and [M]. *)
Ltac unfold_monad :=
  cbn in *;
  unfold mret, mbind, result_ret, result_bind, M_ret, M_bind,
    lift, modify in *;
  cbn in *.

Section check_rules_facts.

Variables (rules : ValidationRule) (value : jsval).

Lemma verdict_ok_inv (c : check) (b : bool) :
  verdict rules c value = Ok b ->
  match c with
  | Required => required_fails rules value = b
  | MinLength => minLength_fails rules value = Ok b
  | MaxLength => maxLength_fails rules value = Ok b
  | Pattern => pattern_fails rules value = b
  | Custom =>
      match custom rules with
      | Some r => validate r value = Ok (negb b)
      | None => b = false
      end
  end.
Proof.
  destruct c; unfold_monad; try congruence.
  destruct (custom rules) as [r|]; [|congruence].
  destruct (validate r value) as [v|e]; [|congruence].
  intros [= <-]. by rewrite negb_involutive.
Qed.

(** What the earlier checks contribute once they are known to pass. *)
Lemma passes_before (c : check) :
  (forall c', rank c' < rank c -> verdict rules c' value = Ok false) ->
  (0 < rank c -> required_fails rules value = false) /\
  (1 < rank c -> minLength_fails rules value = Ok false) /\
  (2 < rank c -> maxLength_fails rules value = Ok false) /\
  (3 < rank c -> pattern_fails rules value = false).
Proof.
  intros Hpass. repeat split; intros Hlt.
  - exact (verdict_ok_inv Required false (Hpass Required Hlt)).
  - exact (verdict_ok_inv MinLength false (Hpass MinLength Hlt)).
  - exact (verdict_ok_inv MaxLength false (Hpass MaxLength Hlt)).
  - exact (verdict_ok_inv Pattern false (Hpass Pattern Hlt)).
Qed.

Lemma check_rules_first_failing (c : check) :
  verdict rules c value = Ok true ->
  (forall c', rank c' < rank c -> verdict rules c' value = Ok false) ->
  check_rules (Some rules) value = Ok (message rules c).
Proof.
  intros Hc Hpass.
  apply verdict_ok_inv in Hc.
  destruct (passes_before c Hpass) as (H0 & H1 & H2 & H3).
  unfold check_rules.
  destruct c; cbn in H0, H1, H2, H3, Hc |- *.
  - by rewrite Hc.
  - rewrite H0, Hc by lia. done.
  - rewrite H0, H1, Hc by lia. done.
  - rewrite H0, H1 by lia. unfold_monad. rewrite H2, Hc by lia. done.
  - rewrite H0, H1 by lia. unfold_monad. rewrite H2, H3 by lia.
    destruct (custom rules) as [r|]; [|done]. by rewrite Hc.
Qed.

Lemma check_rules_all_pass :
  (forall c, verdict rules c value = Ok false) ->
  check_rules (Some rules) value = Ok "".
Proof.
  intros Hpass. unfold check_rules.
  pose proof (verdict_ok_inv _ _ (Hpass Required)) as H0.
  pose proof (verdict_ok_inv _ _ (Hpass MinLength)) as H1.
  pose proof (verdict_ok_inv _ _ (Hpass MaxLength)) as H2.
  pose proof (verdict_ok_inv _ _ (Hpass Pattern)) as H3.
  pose proof (verdict_ok_inv _ _ (Hpass Custom)) as H4.
  cbn in H0, H1, H2, H3, H4.
  rewrite H0, H1. unfold_monad. rewrite H2, H3.
  destruct (custom rules) as [r|]; [|done]. by rewrite H4.
Qed.

Lemma check_rules_raises (e : exn) :
  raises rules value e -> check_rules (Some rules) value = Throw e.
Proof.
  intros (c & Hc & Hpass).
  destruct (passes_before c Hpass) as (H0 & H1 & H2 & H3).
  unfold check_rules.
  destruct c; cbn in H0, H1, H2, H3, Hc |- *.
  - discriminate Hc.
  - rewrite H0, Hc by lia. done.
  - rewrite H0, H1 by lia. unfold_monad. rewrite Hc. done.
  - discriminate Hc.
  - rewrite H0, H1 by lia. unfold_monad. rewrite H2, H3 by lia.
    destruct (custom rules) as [r|]; [|discriminate Hc].
    destruct (validate r value); [discriminate Hc|]. congruence.
Qed.

End check_rules_facts.

Lemma reports_check_rules (rules : option ValidationRule) (value : jsval)
  (msg : string) :
  reports rules value msg -> check_rules rules value = Ok msg.
Proof.
  destruct 1.
  - reflexivity.
  - by apply check_rules_first_failing.
  - by apply check_rules_all_pass.
Qed.

Lemma returns_ok {A} (r : result A) :
  returns r = true -> exists a, r = Ok a.
Proof. destruct r; [eauto | discriminate]. Qed.

Lemma nullish_falsy (value : jsval) :
  nullish value = true -> truthy value = false.
Proof. by destruct value. Qed.

Lemma get_length_nullish (value : jsval) :
  get_length value = Throw TypeError <-> nullish value = true.
Proof. destruct value; cbn; split; congruence. Qed.

Lemma get_length_returns (value : jsval) :
  nullish value = false -> exists len, get_length value = Ok len.
Proof. destruct value; cbn; eauto; discriminate. Qed.

(** When the custom validator returns, the chain raises exactly when it
    has to read the length of null or undefined, and then with a
    TypeError. *)
Lemma check_rules_returns (rules : option ValidationRule) (value : jsval) :
  custom_returns rules value ->
  if length_unreadable rules value
  then check_rules rules value = Throw TypeError
  else exists msg, check_rules rules value = Ok msg.
Proof.
  intros Hcustom. destruct rules as [r|]; [|cbn; eauto].
  assert (Hc : forall c, custom r = Some c -> exists b, validate c value = Ok b)
    by (intros c Hc; apply returns_ok; eauto).
  unfold length_unreadable, has_length_rule, check_rules, required_fails,
    minLength_fails, maxLength_fails.
  destruct (nullish value) eqn:Hnull.
  - rewrite (nullish_falsy _ Hnull).
    pose proof (proj2 (get_length_nullish value) Hnull) as Hlen.
    destruct (has_required r); cbn; [eauto|].
    destruct (minLength r), (maxLength r); unfold_monad; rewrite ?Hlen; try done.
    destruct (pattern_fails r value); [eauto|].
    destruct (custom r) as [c|]; [|eauto].
    destruct (Hc c eq_refl) as [b ->]. eauto.
  - destruct (get_length_returns _ Hnull) as [len Hlen].
    rewrite andb_false_l.
    destruct (has_required r && negb (truthy value)); [eauto|].
    unfold_monad. rewrite Hlen.
    destruct (minLength r) as [lo|]; [destruct (js_lt len (length_value lo)); [eauto|]|];
      (destruct (maxLength r) as [hi|];
        [destruct (js_gt len (length_value hi)); [eauto|]|]);
      (destruct (pattern_fails r value); [eauto|]);
      (destruct (custom r) as [c|]; [|eauto]);
      destruct (Hc c eq_refl) as [b ->]; eauto.
Qed.

(** ** validateField *)

Section validateField_facts.

Variable validationRules : ValidationRules.

Lemma validateField_ok (name : string) (value : jsval) (msg : string)
  (h : Hook) :
  check_rules (rules_for validationRules name) value = Ok msg ->
  validateField validationRules name value h
  = (Ok tt, with_errors (insert name msg)
              (with_effect (FieldValidation name value) h)).
Proof. intros Hmsg. unfold validateField. unfold_monad. by rewrite Hmsg. Qed.

Lemma validateField_throw (name : string) (value : jsval) (e : exn)
  (h : Hook) :
  check_rules (rules_for validationRules name) value = Throw e ->
  validateField validationRules name value h
  = (Throw e, with_effect (FieldValidation name value) h).
Proof. intros Hmsg. unfold validateField. unfold_monad. by rewrite Hmsg. Qed.

End validateField_facts.

(** C1 (amended).  Whenever evaluating the checks of field [name] in the
    order required, minLength, maxLength, pattern, custom reaches a first
    failing check without an earlier check raising, or finds that all of
    them pass, or finds no rule set for [name], [validateField name value]
    returns normally and writes into [errors[name]] the message of that
    first failing check, the empty message in the other two cases; the
    checks after the first failing one are not evaluated. *)
Theorem validateField_first_failing (validationRules : ValidationRules)
  (name : string) (value : jsval) (msg : string) (h : Hook) :
  reports (rules_for validationRules name) value msg ->
  validateField validationRules name value h
  = (Ok tt, with_errors (insert name msg)
              (with_effect (FieldValidation name value) h)).
Proof. intros Hmsg. by apply validateField_ok, reports_check_rules. Qed.

Lemma validateField_first_failing_witness :
  reports (rules_for [("pin", pin_rules)] "pin") (JStr "ab") "Too short" /\
  validateField [("pin", pin_rules)] "pin" (JStr "ab") (mount ∅)
  = (Ok tt, with_errors (insert "pin" "Too short")
              (with_effect (FieldValidation "pin" (JStr "ab")) (mount ∅))).
Proof.
  assert (Hreports :
    reports (rules_for [("pin", pin_rules)] "pin") (JStr "ab") "Too short").
  { apply (reports_first_failing pin_rules (JStr "ab") MinLength).
    - reflexivity.
    - intros c' Hlt. destruct c'; simpl in Hlt; [reflexivity | lia ..]. }
  split; [exact Hreports|].
  exact (validateField_first_failing _ _ _ _ (mount ∅) Hreports).
Defined.

(** C1 fails as stated: with [{ bio: { maxLength: ... } }] the call
    [validateField('bio', null)] reads [null.length], is rejected with a
    TypeError, and writes nothing into [errors.bio]. *)
Lemma validateField_null_maxLength_rejects :
  validateField [("bio", bio_rules)] "bio" JNull (mount ∅)
  = (Throw TypeError, with_effect (FieldValidation "bio" JNull) (mount ∅)) /\
  errors (exec (validateField [("bio", bio_rules)] "bio" JNull) (mount ∅))
    !! "bio" = None.
Proof. split; reflexivity. Qed.

(** C6 (amended).  Provided the custom validator of field [name], if any,
    returns normally on [value], [validateField name value] returns
    normally and records its outcome in [errors[name]] for every value,
    values without a length property included, unless [value] is null or
    undefined while the field has a minLength or maxLength rule and no
    non-empty required message: there it is rejected with a TypeError and
    [errors] is left as it was. *)
Theorem validateField_returns_unless_length_unreadable
  (validationRules : ValidationRules) (name : string) (value : jsval)
  (h : Hook) :
  custom_returns (rules_for validationRules name) value ->
  if length_unreadable (rules_for validationRules name) value
  then fst (validateField validationRules name value h) = Throw TypeError /\
       errors (exec (validateField validationRules name value) h) = errors h
  else exists msg,
       validateField validationRules name value h
       = (Ok tt, with_errors (insert name msg)
                   (with_effect (FieldValidation name value) h)).
Proof.
  intros Hcustom. pose proof (check_rules_returns _ _ Hcustom) as Hret.
  destruct (length_unreadable _ _).
  - unfold exec. by rewrite (validateField_throw _ _ _ _ h Hret).
  - destruct Hret as [msg Hmsg]. exists msg. by apply validateField_ok.
Qed.

Lemma validateField_returns_unless_length_unreadable_witness :
  custom_returns (rules_for [("age", age_rules)] "age") (JNum (Int 17)) /\
  exists msg,
    validateField [("age", age_rules)] "age" (JNum (Int 17)) (mount ∅)
    = (Ok tt, with_errors (insert "age" msg)
                (with_effect (FieldValidation "age" (JNum (Int 17))) (mount ∅))).
Proof.
  assert (Hcustom :
    custom_returns (rules_for [("age", age_rules)] "age") (JNum (Int 17))).
  { intros r c [= <-] [= <-]. reflexivity. }
  split; [exact Hcustom|].
  exact (validateField_returns_unless_length_unreadable
           [("age", age_rules)] "age" (JNum (Int 17)) (mount ∅) Hcustom).
Defined.

(** C6 fails as stated: with [{ nickname: { minLength: ... } }] and no
    custom validator, [validateField('nickname', undefined)] is rejected
    with a TypeError instead of recording an outcome. *)
Lemma validateField_undefined_minLength_rejects :
  fst (validateField [("nickname", nickname_rules)] "nickname" JUndefined
         (mount ∅)) = Throw TypeError /\
  custom nickname_rules = None /\
  errors (exec (validateField [("nickname", nickname_rules)] "nickname"
                  JUndefined) (mount ∅)) = ∅.
Proof. repeat split; reflexivity. Qed.

(** C8 (amended).  For every field whose required rule has a non-empty
    message, [validateField] with a falsy value writes exactly that
    message, and with a truthy value that passes all the other checks of
    the field writes the empty message. *)
Theorem validateField_required (validationRules : ValidationRules)
  (name : string) (rules : ValidationRule) (msg : string) (value : jsval)
  (h : Hook) :
  rules_for validationRules name = Some rules ->
  required rules = Some msg ->
  msg <> "" ->
  (truthy value = true ->
   forall c, c <> Required -> verdict rules c value = Ok false) ->
  validateField validationRules name value h
  = (Ok tt, with_errors (insert name (if truthy value then "" else msg))
              (with_effect (FieldValidation name value) h)).
Proof.
  intros Hrules Hreq Hmsg Hothers.
  assert (Hhas : has_required rules = true).
  { unfold has_required. rewrite Hreq.
    by apply negb_true_iff, String.eqb_neq. }
  apply validateField_ok, reports_check_rules. rewrite Hrules.
  destruct (truthy value) eqn:Htruthy.
  - apply reports_all_pass. intros c.
    destruct c; try (apply Hothers; [reflexivity | discriminate]).
    cbn. unfold required_fails. by rewrite Htruthy, andb_false_r.
  - replace msg with (message rules Required) by (cbn; by rewrite Hreq).
    apply reports_first_failing.
    + cbn. unfold required_fails. by rewrite Hhas, Htruthy.
    + intros c'. cbn. lia.
Qed.

Lemma validateField_required_witness :
  validateField [("age", age_rules)] "age" (JNum (Int 0)) (mount ∅)
  = (Ok tt, with_errors (insert "age" "Age is required")
              (with_effect (FieldValidation "age" (JNum (Int 0))) (mount ∅)))
  /\
  validateField [("age", age_rules)] "age" (JNum (Int 21)) (mount ∅)
  = (Ok tt, with_errors (insert "age" "")
              (with_effect (FieldValidation "age" (JNum (Int 21))) (mount ∅))).
Proof.
  split.
  - apply (validateField_required [("age", age_rules)] "age" age_rules
             "Age is required" (JNum (Int 0)) (mount ∅)).
    + reflexivity.
    + reflexivity.
    + discriminate.
    + discriminate.
  - apply (validateField_required [("age", age_rules)] "age" age_rules
             "Age is required" (JNum (Int 21)) (mount ∅)).
    + reflexivity.
    + reflexivity.
    + discriminate.
    + intros _ c Hc. destruct c; [congruence | reflexivity ..].
Defined.

(** C8 fails as stated: with [{ required: '', minLength: { value: 3, ... } }]
    the empty required message does not guard the chain, and the falsy
    value [''] is given the minLength message, not the required one. *)
Lemma validateField_blank_required_message :
  required blank_required_rules = Some "" /\
  falsy (JStr "") = true /\
  errors (exec (validateField [("code", blank_required_rules)] "code" (JStr ""))
            (mount ∅)) !! "code" = Some "Too short".
Proof. repeat split; reflexivity. Qed.

(** C9 (amended).  A field has at most one recorded message at any time,
    and when a value fails more than one check of the field,
    [validateField] records the message of the first failing check in
    evaluation order. *)
Theorem validateField_first_of_several (validationRules : ValidationRules)
  (name : string) (rules : ValidationRule) (value : jsval)
  (first later : check) (h : Hook) :
  rules_for validationRules name = Some rules ->
  verdict rules first value = Ok true ->
  verdict rules later value = Ok true ->
  rank first < rank later ->
  (forall c, rank c < rank first -> verdict rules c value = Ok false) ->
  errors (exec (validateField validationRules name value) h) !! name
    = Some (message rules first) /\
  (forall (h' : Hook) (field : string) (m1 m2 : string),
     errors h' !! field = Some m1 -> errors h' !! field = Some m2 -> m1 = m2).
Proof.
  intros Hrules Hfirst _ _ Hbefore. split.
  - unfold exec.
    rewrite (validateField_ok validationRules name value (message rules first)).
    + cbn. apply lookup_insert_eq.
    + rewrite Hrules. by apply check_rules_first_failing.
  - intros h' field m1 m2 H1 H2. congruence.
Qed.

Lemma validateField_first_of_several_witness :
  errors (exec (validateField [("pin", pin_rules)] "pin" (JStr "ab")) (mount ∅))
    !! "pin" = Some (message pin_rules MinLength) /\
  (forall (h' : Hook) (field : string) (m1 m2 : string),
     errors h' !! field = Some m1 -> errors h' !! field = Some m2 -> m1 = m2).
Proof.
  apply (validateField_first_of_several [("pin", pin_rules)] "pin" pin_rules
           (JStr "ab") MinLength Pattern (mount ∅)).
  - reflexivity.
  - reflexivity.
  - reflexivity.
  - simpl. lia.
  - intros c Hlt. destruct c; simpl in Hlt; [reflexivity | lia ..].
Defined.

(** C9 fails as stated: ['ab'] fails both minLength and pattern of the
    [pin] rules, pattern being the last failing check, and the message
    recorded is the minLength one. *)
Lemma validateField_records_first_not_last :
  verdict pin_rules MinLength (JStr "ab") = Ok true /\
  verdict pin_rules Pattern (JStr "ab") = Ok true /\
  verdict pin_rules Custom (JStr "ab") = Ok false /\
  errors (exec (validateField [("pin", pin_rules)] "pin" (JStr "ab")) (mount ∅))
    !! "pin" = Some "Too short" /\
  message pin_rules Pattern = "Digits only".
Proof. repeat split; reflexivity. Qed.

(** ** From the chain back to the specification's reading *)

(** Closes [verdict rules c' value = Ok false] for the checks before the
    current one from the equations gathered while walking the chain. *)
Ltac earlier_pass :=
  let c' := fresh "c'" in
  let Hlt := fresh "Hlt" in
  intros c' Hlt; destruct c'; cbn in Hlt; try lia;
  cbn; unfold mret, result_ret; congruence.

Lemma check_rules_reports (rules : option ValidationRule) (value : jsval)
  (msg : string) :
  check_rules rules value = Ok msg -> reports rules value msg.
Proof.
  destruct rules as [r|]; [|intros [= <-]; constructor].
  unfold check_rules.
  destruct (required_fails r value) eqn:H0.
  { intros [= <-]. apply (reports_first_failing r value Required).
    - cbn. by rewrite H0.
    - earlier_pass. }
  destruct (minLength_fails r value) as [[|]|e1] eqn:H1; unfold_monad;
    [| |discriminate].
  { intros [= <-]. apply (reports_first_failing r value MinLength).
    - exact H1.
    - earlier_pass. }
  destruct (maxLength_fails r value) as [[|]|e2] eqn:H2; [| |discriminate].
  { intros [= <-]. apply (reports_first_failing r value MaxLength).
    - exact H2.
    - earlier_pass. }
  destruct (pattern_fails r value) eqn:H3.
  { intros [= <-]. apply (reports_first_failing r value Pattern).
    - cbn. by rewrite H3.
    - earlier_pass. }
  destruct (custom r) as [c|] eqn:H4.
  - destruct (validate c value) as [[|]|e4] eqn:H5; [| |discriminate].
    + intros [= <-]. apply reports_all_pass.
      intros k. destruct k; cbn; unfold mret, result_ret; try congruence.
      rewrite H4. unfold_monad. by rewrite H5.
    + intros [= <-].
      replace (custom_message c) with (message r Custom)
        by (cbn; by rewrite H4).
      apply reports_first_failing.
      * cbn. rewrite H4. unfold_monad. by rewrite H5.
      * earlier_pass.
  - intros [= <-]. apply reports_all_pass.
    intros k. destruct k; cbn; unfold mret, result_ret; try congruence.
    by rewrite H4.
Qed.

(** A chain that does not return was stopped by a check that raised
    before any check failed. *)
Lemma check_rules_throw_raises (rules : ValidationRule) (value : jsval)
  (e : exn) :
  check_rules (Some rules) value = Throw e -> raises rules value e.
Proof.
  unfold check_rules, raises.
  destruct (required_fails rules value) eqn:H0; [discriminate|].
  destruct (minLength_fails rules value) as [[|]|e1] eqn:H1; unfold_monad;
    [discriminate| |].
  2:{ intros [= <-]. exists MinLength. split; [exact H1 | earlier_pass]. }
  destruct (maxLength_fails rules value) as [[|]|e2] eqn:H2; [discriminate| |].
  2:{ intros [= <-]. exists MaxLength. split; [exact H2 | earlier_pass]. }
  destruct (pattern_fails rules value) eqn:H3; [discriminate|].
  destruct (custom rules) as [c|] eqn:H4; [|discriminate].
  destruct (validate c value) as [b|e4] eqn:H5; [discriminate|].
  intros [= <-]. exists Custom. split.
  - cbn. rewrite H4. unfold_monad. by rewrite H5.
  - earlier_pass.
Qed.

(** Every evaluation either reports a message or raises. *)
Lemma reports_or_raises (rules : option ValidationRule) (value : jsval) :
  (exists msg, reports rules value msg) \/
  (exists r e, rules = Some r /\ raises r value e).
Proof.
  destruct (check_rules rules value) as [msg|e] eqn:Hchk.
  - left. exists msg. by apply check_rules_reports.
  - right. destruct rules as [r|]; [|discriminate].
    exists r, e. split; [done|]. by apply check_rules_throw_raises.
Qed.

Lemma reports_iff (rules : option ValidationRule) (value : jsval)
  (msg : string) :
  reports rules value msg <-> check_rules rules value = Ok msg.
Proof. split; [apply reports_check_rules | apply check_rules_reports]. Qed.

Lemma reports_functional (rules : option ValidationRule) (value : jsval)
  (m1 m2 : string) :
  reports rules value m1 -> reports rules value m2 -> m1 = m2.
Proof. rewrite !reports_iff. congruence. Qed.

(** ** validateForm *)

Section validateForm_facts.

Variable validationRules : ValidationRules.
Variable vals : gmap string jsval.

Lemma validateForm_loop_ok (names : list string) (acc : gmap string string) :
  (forall name, name ∈ names ->
     exists msg, field_reports validationRules vals name msg) ->
  sound validationRules vals acc ->
  exists newErrors,
    validateForm_loop validationRules names vals acc = Ok newErrors /\
    forall name msg,
      newErrors !! name = Some msg <->
      (name ∈ names /\ msg <> "" /\
       field_reports validationRules vals name msg) \/
      acc !! name = Some msg.
Proof.
  revert acc. induction names as [|n rest IH]; intros acc Hall Hacc.
  - exists acc. split; [done|]. intros name msg. split; [auto|].
    intros [[Hin _]|H]; [by apply elem_of_nil in Hin | done].
  - destruct (Hall n) as [m Hm]; [by left|].
    pose proof (reports_check_rules _ _ _ Hm) as Hchk.
    cbn [validateForm_loop]. unfold_monad. rewrite Hchk.
    destruct (IH (if String.eqb m "" then acc else <[n:=m]> acc))
      as (res & Hres & Hlook).
    + intros name Hin. apply Hall. by right.
    + destruct (String.eqb_spec m "") as [->|Hne]; [done|].
      intros name msg. destruct (decide (n = name)) as [<-|Hnn].
      * rewrite lookup_insert_eq. by intros [= <-].
      * rewrite lookup_insert_ne by done. apply Hacc.
    + exists res. split; [done|]. intros name msg. rewrite Hlook.
      rewrite elem_of_cons.
      destruct (String.eqb_spec m "") as [->|Hne].
      * split; [intros [(?&?&?)|?]; auto|].
        intros [([->|Hin] & Hmsg & Hrep)|H]; auto.
        destruct Hmsg. exact (reports_functional _ _ _ _ Hrep Hm).
      * destruct (decide (n = name)) as [<-|Hnn].
        -- rewrite lookup_insert_eq. split.
           ++ intros [(?&?&?)|[= <-]]; auto.
           ++ intros [(_ & _ & Hrep)|H].
              ** right. f_equal. exact (reports_functional _ _ _ _ Hm Hrep).
              ** right. f_equal. destruct (Hacc _ _ H) as [Hrep _].
                 exact (reports_functional _ _ _ _ Hm Hrep).
        -- rewrite lookup_insert_ne by done. split.
           ++ intros [(?&?&?)|?]; auto.
           ++ intros [([->|Hin] & Hmsg & Hrep)|H]; auto. done.
Qed.

(** [validateForm] by the outcome of its loop. *)
Lemma validateForm_unfold (h : Hook) :
  validateForm validationRules vals h =
  match validateForm_loop validationRules (map fst validationRules) vals ∅ with
  | Ok newErrors =>
      (Ok (Nat.eqb (size newErrors) 0),
       with_isValidating false
         (with_errors (fun _ => newErrors) (with_isValidating true h)))
  | Throw e => (Throw e, with_isValidating true h)
  end.
Proof.
  unfold validateForm, setIsValidating, setErrors. unfold_monad.
  by destruct (validateForm_loop _ _ _ _).
Qed.

(** The verdict of [validateForm] does not depend on the hook's state. *)
Lemma validateForm_outcome (h h' : Hook) :
  fst (validateForm validationRules vals h)
  = fst (validateForm validationRules vals h').
Proof.
  rewrite !validateForm_unfold. by destruct (validateForm_loop _ _ _ _).
Qed.

Lemma validateForm_trace (h : Hook) :
  trace (exec (validateForm validationRules vals) h) = trace h.
Proof.
  unfold exec. rewrite validateForm_unfold.
  by destruct (validateForm_loop _ _ _ _).
Qed.

Lemma validateForm_isSubmitting (h : Hook) :
  isSubmitting (exec (validateForm validationRules vals) h) = isSubmitting h.
Proof.
  unfold exec. rewrite validateForm_unfold.
  by destruct (validateForm_loop _ _ _ _).
Qed.

End validateForm_facts.

(** C2 (amended).  For every values map on which no field's rule
    evaluation raises, [validateForm values] evaluates the rules of every
    field of the rule set, a field without an entry in [values] on
    [undefined]; replaces the whole [errors] map by the map that holds
    exactly the fields now failing, each with its message; and returns
    true if and only if no field fails. *)
Theorem validateForm_replaces_errors (validationRules : ValidationRules)
  (vals : gmap string jsval) (h : Hook) :
  (forall name, name ∈ map fst validationRules ->
     exists msg, field_reports validationRules vals name msg) ->
  exists (newErrors : gmap string string) (valid : bool),
    validateForm validationRules vals h
    = (Ok valid,
       with_isValidating false
         (with_errors (fun _ => newErrors) (with_isValidating true h))) /\
    (forall name msg,
       newErrors !! name = Some msg <->
       name ∈ map fst validationRules /\ msg <> "" /\
       field_reports validationRules vals name msg) /\
    (valid = true <->
     forall name, name ∈ map fst validationRules ->
       field_reports validationRules vals name "").
Proof.
  intros Hall.
  destruct (validateForm_loop_ok validationRules vals
              (map fst validationRules) ∅ Hall) as (res & Hres & Hlook).
  { intros name msg. by rewrite lookup_empty. }
  assert (Hlook' : forall name msg,
    res !! name = Some msg <->
    name ∈ map fst validationRules /\ msg <> "" /\
    field_reports validationRules vals name msg).
  { intros name msg. rewrite Hlook, lookup_empty.
    split; [intros [H|H]; [exact H | discriminate H] | by left]. }
  exists res, (Nat.eqb (size res) 0). split; [|split; [exact Hlook'|]].
  - rewrite validateForm_unfold. by rewrite Hres.
  - rewrite Nat.eqb_eq, map_size_empty_iff. split.
    + intros -> name Hin. destruct (Hall name Hin) as [msg Hmsg].
      destruct (String.eqb_spec msg "") as [->|Hne]; [done|].
      assert (Hsome : (∅ : gmap string string) !! name = Some msg)
        by (apply Hlook'; auto).
      by rewrite lookup_empty in Hsome.
    + intros Hpass. apply map_empty. intros name.
      destruct (res !! name) as [msg|] eqn:Hname; [|done].
      apply Hlook' in Hname as (Hin & Hne & Hrep).
      destruct Hne. exact (reports_functional _ _ _ _ Hrep (Hpass name Hin)).
Qed.

Lemma validateForm_replaces_errors_witness :
  (forall name, name ∈ map fst [("age", age_rules)] ->
     exists msg, field_reports [("age", age_rules)]
                   {["age" := JNum (Int 17)]} name msg) /\
  exists (newErrors : gmap string string) (valid : bool),
    validateForm [("age", age_rules)] {["age" := JNum (Int 17)]} (mount ∅)
    = (Ok valid,
       with_isValidating false
         (with_errors (fun _ => newErrors) (with_isValidating true (mount ∅))))
    /\
    (forall name msg,
       newErrors !! name = Some msg <->
       name ∈ map fst [("age", age_rules)] /\ msg <> "" /\
       field_reports [("age", age_rules)] {["age" := JNum (Int 17)]} name msg)
    /\
    (valid = true <->
     forall name, name ∈ map fst [("age", age_rules)] ->
       field_reports [("age", age_rules)] {["age" := JNum (Int 17)]} name "").
Proof.
  assert (Hall : forall name, name ∈ map fst [("age", age_rules)] ->
     exists msg, field_reports [("age", age_rules)]
                   {["age" := JNum (Int 17)]} name msg).
  { intros name Hin. apply list_elem_of_singleton in Hin as ->.
    exists "You must be at least 18 years old".
    apply check_rules_reports. reflexivity. }
  split; [exact Hall|].
  exact (validateForm_replaces_errors [("age", age_rules)]
           {["age" := JNum (Int 17)]} (mount ∅) Hall).
Defined.

(** C2 fails as stated: [nickname] is in the rule set with a minLength
    rule and has no entry in [values]; [validateForm] reads
    [undefined.length] and is rejected with a TypeError.  No verdict is
    returned, the stale [errors] map is not replaced, and [isValidating]
    is left true. *)
Lemma validateForm_missing_field_rejects :
  let stale := with_errors (fun _ => {["nickname" := "Too short"]}) (mount ∅) in
  validateForm [("nickname", nickname_rules)] ∅ stale
  = (Throw TypeError, with_isValidating true stale) /\
  errors (exec (validateForm [("nickname", nickname_rules)] ∅) stale)
  = {["nickname" := "Too short"]}.
Proof. split; reflexivity. Qed.

(** ** handleSubmit *)

Section handleSubmit_facts.

Variable validationRules : ValidationRules.
Variable callback : gmap string jsval -> result unit.

(** The handler by the outcome of validation and of the callback. *)
Lemma handleSubmit_unfold (h : Hook) :
  handleSubmit validationRules callback h =
  let submitting := with_isSubmitting true (with_effect PreventDefault h) in
  match validateForm validationRules (values h) submitting with
  | (Ok true, validated) =>
      let called := with_effect (SubmitCallback (values h)) validated in
      match callback (values h) with
      | Ok _ => (Ok tt, with_isSubmitting false called)
      | Throw e => (Throw e, called)
      end
  | (Ok false, validated) => (Ok tt, with_isSubmitting false validated)
  | (Throw e, validated) => (Throw e, validated)
  end.
Proof.
  unfold handleSubmit, emit, setIsSubmitting.
  unfold mbind, M_bind, mret, M_ret, lift, modify. cbv zeta.
  by destruct (validateForm validationRules (values h) _)
    as [[[|]|e] validated].
Qed.

End handleSubmit_facts.

(** C3.  On every invocation of the handler [handleSubmit(callback)]
    returns, if [validateForm] on the current values reports the form
    invalid, the callback is not invoked: the handler returns normally and
    the only call it makes is [event.preventDefault()]. *)
Theorem handleSubmit_invalid_skips_callback (validationRules : ValidationRules)
  (callback : gmap string jsval -> result unit) (h : Hook) :
  fst (validateForm validationRules (values h) h) = Ok false ->
  fst (handleSubmit validationRules callback h) = Ok tt /\
  trace (exec (handleSubmit validationRules callback) h)
  = (trace h ++ [PreventDefault])%list /\
  forall vals,
    SubmitCallback vals ∈ trace (exec (handleSubmit validationRules callback) h) ->
    SubmitCallback vals ∈ trace h.
Proof.
  intros Hinvalid. unfold exec. rewrite handleSubmit_unfold. cbv zeta.
  pose proof (validateForm_outcome validationRules (values h)
                (with_isSubmitting true (with_effect PreventDefault h)) h)
    as Hout.
  pose proof (validateForm_trace validationRules (values h)
                (with_isSubmitting true (with_effect PreventDefault h)))
    as Htrace.
  unfold exec in Htrace. rewrite Hinvalid in Hout.
  destruct (validateForm validationRules (values h)
              (with_isSubmitting true (with_effect PreventDefault h)))
    as [r validated].
  cbn in Hout, Htrace. subst r. cbn.
  rewrite Htrace. split; [done|]. split; [done|].
  intros vals Hin. apply elem_of_app in Hin as [Hin|Hin]; [done|].
  by apply list_elem_of_singleton in Hin.
Qed.

Lemma handleSubmit_invalid_skips_callback_witness :
  let h := with_values (fun _ => {["age" := JNum (Int 17)]}) (mount ∅) in
  fst (validateForm [("age", age_rules)] (values h) h) = Ok false /\
  fst (handleSubmit [("age", age_rules)] refuse h) = Ok tt /\
  trace (exec (handleSubmit [("age", age_rules)] refuse) h)
  = (trace h ++ [PreventDefault])%list /\
  forall vals,
    SubmitCallback vals
      ∈ trace (exec (handleSubmit [("age", age_rules)] refuse) h) ->
    SubmitCallback vals ∈ trace h.
Proof.
  intros h.
  assert (Hinvalid :
    fst (validateForm [("age", age_rules)] (values h) h) = Ok false)
    by reflexivity.
  split; [exact Hinvalid|].
  exact (handleSubmit_invalid_skips_callback [("age", age_rules)] refuse h
           Hinvalid).
Defined.

(** C7 (amended).  The handler [handleSubmit(callback)] returns runs to
    its end exactly when [validateForm] returns normally and the callback,
    if validation lets it run, returns normally too; [isSubmitting] is
    then false when the handler returns, whether the form was valid or
    not.  When a validator or the callback raises, the handler is rejected
    and [isSubmitting] is left true. *)
Theorem handleSubmit_isSubmitting (validationRules : ValidationRules)
  (callback : gmap string jsval -> result unit) (h : Hook) :
  returns (fst (handleSubmit validationRules callback h))
  = submit_completes validationRules callback h /\
  isSubmitting (exec (handleSubmit validationRules callback) h)
  = negb (submit_completes validationRules callback h).
Proof.
  unfold submit_completes, exec. rewrite handleSubmit_unfold. cbv zeta.
  pose proof (validateForm_outcome validationRules (values h)
                (with_isSubmitting true (with_effect PreventDefault h)) h)
    as Hout.
  pose proof (validateForm_isSubmitting validationRules (values h)
                (with_isSubmitting true (with_effect PreventDefault h)))
    as Hflag.
  unfold exec in Hflag. rewrite <- Hout. clear Hout.
  destruct (validateForm validationRules (values h)
              (with_isSubmitting true (with_effect PreventDefault h)))
    as [[[|]|e] validated]; cbn in Hflag |- *.
  - destruct (callback (values h)) as [[]|e]; cbn; [done|].
    by rewrite Hflag.
  - done.
  - by rewrite Hflag.
Qed.

(** C7 fails as stated: the form is valid and the callback throws; the
    handler is rejected before [setIsSubmitting(false)] and [isSubmitting]
    is left true. *)
Lemma handleSubmit_throwing_callback_keeps_isSubmitting :
  let h := with_values (fun _ => {["age" := JNum (Int 21)]}) (mount ∅) in
  fst (validateForm [("age", age_rules)] (values h) h) = Ok true /\
  fst (handleSubmit [("age", age_rules)] refuse h)
  = Throw (Rejected "submit failed") /\
  isSubmitting (exec (handleSubmit [("age", age_rules)] refuse) h) = true.
Proof. repeat split; reflexivity. Qed.

(** C10.  Whatever the state before, [resetForm()] leaves [values] equal
    to [initialValues] and [errors] empty, and runs no validation: no
    field is validated, [isValidating] and the pending debounce timer are
    untouched. *)
Theorem resetForm_restores (initialValues : gmap string jsval) (h : Hook) :
  fst (resetForm initialValues h) = Ok tt /\
  values (exec (resetForm initialValues) h) = initialValues /\
  errors (exec (resetForm initialValues) h) = ∅ /\
  trace (exec (resetForm initialValues) h) = trace h /\
  isValidating (exec (resetForm initialValues) h) = isValidating h /\
  isSubmitting (exec (resetForm initialValues) h) = isSubmitting h /\
  debounceTimer (exec (resetForm initialValues) h) = debounceTimer h /\
  timers (exec (resetForm initialValues) h) = timers h.
Proof. repeat split; reflexivity. Qed.

(** ** The debounce timer *)

Section debounce_facts.

Variable validationRules : ValidationRules.
Variable debounceTime : nat.


(** What [handleChange] does to the state cells, on any state. *)
Lemma handleChange_cells (name : string) (value : jsval) (h : Hook) :
  values (exec (handleChange debounceTime name value) h)
  = <[name := value]> (values h) /\
  errors (exec (handleChange debounceTime name value) h) = errors h /\
  trace (exec (handleChange debounceTime name value) h) = trace h /\
  isSubmitting (exec (handleChange debounceTime name value) h)
  = isSubmitting h /\
  isValidating (exec (handleChange debounceTime name value) h)
  = isValidating h.
Proof.
  unfold exec, handleChange, setValues, debouncedValidateField, debounce,
    setTimeout, clearTimeout. unfold mbind, M_bind, modify. cbn.
  by destruct (debounceTimer h).
Qed.

(** On a tidy state [clearTimeout(debounceTimer)] leaves no timeout
    pending. *)
Lemma clearTimeout_tidy (h : Hook) :
  tidy h ->
  timers (exec (clearTimeout (debounceTimer h)) h) = [].
Proof.
  unfold tidy, exec, clearTimeout, modify. cbn.
  destruct (timers h) as [|t [|u rest]] eqn:Htimers; [| |done].
  - intros _. by destruct (debounceTimer h).
  - intros ->. cbn. by rewrite Nat.eqb_refl.
Qed.

Lemma handleChange_exec (name : string) (value : jsval) (h : Hook) :
  tidy h ->
  exec (handleChange debounceTime name value) h
  = with_debounceTimer (Some (nextTimer h))
      (with_nextTimer (S (nextTimer h))
         (with_timers [timeout_of debounceTime name value h]
            (with_values (insert name value) h))).
Proof.
  intros Htidy. pose proof (clearTimeout_tidy h Htidy) as Hclear.
  unfold exec, handleChange, debouncedValidateField, debounce, setValues,
    setTimeout, timeout_of in *.
  unfold mbind, M_bind, modify in *. cbn in *.
  destruct (debounceTimer h) as [id|]; cbn in *; by rewrite Hclear.
Qed.

Lemma handleChange_armed (name : string) (value : jsval) (h : Hook) :
  tidy h ->
  armed debounceTime name value
    (exec (handleChange debounceTime name value) h).
Proof.
  intros Htidy. rewrite handleChange_exec by done.
  exists (nextTimer h). by split.
Qed.

Lemma validateField_exec (name : string) (value : jsval) (h : Hook) :
  exists f,
    exec (validateField validationRules name value) h
    = with_errors f (with_effect (FieldValidation name value) h) /\
    forall (errs : gmap string string) (other : string),
      other <> name -> f errs !! other = errs !! other.
Proof.
  unfold exec.
  destruct (check_rules (rules_for validationRules name) value)
    as [msg|e] eqn:Hchk.
  - exists (insert name msg). split.
    + by rewrite (validateField_ok _ _ _ _ h Hchk).
    + intros errs other Hne. by rewrite lookup_insert_ne.
  - exists id. split.
    + rewrite (validateField_throw _ _ _ _ h Hchk). by destruct h.
    + done.
Qed.

Lemma advance_early (name : string) (value : jsval) (dt : nat) (h : Hook) :
  armed debounceTime name value h -> dt < debounceTime ->
  advance validationRules dt h = with_clock (clock h + dt) h.
Proof.
  intros (id & Htimers & _) Hlt. unfold advance, is_due. rewrite Htimers.
  cbn.
  destruct (Nat.leb_spec (clock h + debounceTime) (clock h + dt)); [lia|].
  cbn. rewrite <- Htimers. by destruct h.
Qed.

Lemma advance_due (name : string) (value : jsval) (dt : nat) (h : Hook) :
  armed debounceTime name value h -> debounceTime <= dt ->
  advance validationRules dt h
  = exec (validateField validationRules name value)
      (with_timers [] (with_clock (clock h + dt) h)).
Proof.
  intros (id & Htimers & _) Hle. unfold advance, is_due. rewrite Htimers.
  cbn.
  destruct (Nat.leb_spec (clock h + debounceTime) (clock h + dt)); [|lia].
  reflexivity.
Qed.







End debounce_facts.





(** ** Scenarios of the test suite *)

(** [handleChange('age', 17)], then the debounce delay: the custom
    message; [handleChange('age', 18)], then the delay: no message. *)
Example age_scenario :
  let rules := [("username", username_rules); ("age", age_rules)] in
  let minor :=
    advance rules 300 (exec (handleChange 300 "age" (JNum (Int 17))) (mount ∅)) in
  let adult :=
    advance rules 300 (exec (handleChange 300 "age" (JNum (Int 18))) minor) in
  errors minor !! "age" = Some "You must be at least 18 years old" /\
  errors adult !! "age" = Some "".
Proof. split; reflexivity. Qed.

(** Three quick changes of [age], then one of [username]: each call
    clears the timeout of the call before it, so that one timeout is
    pending after the four calls and, once the delay has passed, one
    validation has run, that of the last call. *)
Example debounce_scenario :
  let rules := [("username", username_rules); ("age", age_rules)] in
  let typed :=
    exec (handleChange 300 "username" (JStr "taken"))
      (advance rules 50
         (exec (handleChange 300 "age" (JNum (Int 18)))
            (advance rules 50
               (exec (handleChange 300 "age" (JNum (Int 17)))
                  (advance rules 50
                     (exec (handleChange 300 "age" (JNum (Int 1)))
                        (mount ∅))))))) in
  timers typed
  = [{| timeout_id := 3; timeout_due := 450;
        timeout_args := ("username", JStr "taken") |}] /\
  debounceTimer typed = Some 3 /\
  trace (advance rules 300 typed)
  = [FieldValidation "username" (JStr "taken")] /\
  errors (advance rules 300 typed)
  = {["username" := "Username is already taken"]}.
Proof. repeat split; reflexivity. Qed.

(** The validator of [username] resolving false for ['taken']. *)
Example username_scenario :
  let rules := [("username", username_rules); ("age", age_rules)] in
  errors (exec (validateField rules "username" (JStr "taken")) (mount ∅))
    !! "username" = Some "Username is already taken" /\
  errors (exec (validateField rules "username" (JStr "validUsername")) (mount ∅))
    !! "username" = Some "".
Proof. split; reflexivity. Qed.

(** Submitting a form with one failing field, then the corrected form. *)
Example submit_scenario :
  let rules := [("username", username_rules); ("age", age_rules)] in
  let filled (age : Z) : gmap string jsval :=
    {["username" := JStr "validUsername"; "age" := JNum (Int age)]} in
  let rejected :=
    exec (handleSubmit rules accept) (with_values (fun _ => filled 17%Z) (mount ∅)) in
  let accepted :=
    exec (handleSubmit rules accept) (with_values (fun _ => filled 18%Z) (mount ∅)) in
  trace rejected = [PreventDefault] /\
  isSubmitting rejected = false /\
  errors rejected = {["age" := "You must be at least 18 years old"]} /\
  trace accepted = [PreventDefault; SubmitCallback (filled 18%Z)] /\
  isSubmitting accepted = false /\
  errors accepted = ∅.
Proof. repeat split; reflexivity. Qed.

(** ** Further properties of validateField *)

Section validateField_more.

Variable validationRules : ValidationRules.

(** The [errors] map a call leaves, by the outcome of the chain. *)
Lemma validateField_errors (name : string) (value : jsval) (h : Hook) :
  errors (exec (validateField validationRules name value) h)
  = match check_rules (rules_for validationRules name) value with
    | Ok msg => <[name := msg]> (errors h)
    | Throw _ => errors h
    end.
Proof.
  unfold exec.
  destruct (check_rules (rules_for validationRules name) value)
    as [msg|e] eqn:Hchk.
  - by rewrite (validateField_ok _ _ _ _ h Hchk).
  - by rewrite (validateField_throw _ _ _ _ h Hchk).
Qed.

Lemma validateField_outcome (name : string) (value : jsval) (h : Hook) :
  fst (validateField validationRules name value h)
  = match check_rules (rules_for validationRules name) value with
    | Ok _ => Ok tt
    | Throw e => Throw e
    end.
Proof.
  destruct (check_rules (rules_for validationRules name) value)
    as [msg|e] eqn:Hchk.
  - by rewrite (validateField_ok _ _ _ _ h Hchk).
  - by rewrite (validateField_throw _ _ _ _ h Hchk).
Qed.

(** What a call leaves alone. *)
Lemma validateField_frame (name : string) (value : jsval) (h : Hook) :
  let h' := exec (validateField validationRules name value) h in
  values h' = values h /\ isSubmitting h' = isSubmitting h /\
  isValidating h' = isValidating h /\ debounceTimer h' = debounceTimer h /\
  clock h' = clock h /\ timers h' = timers h.
Proof.
  unfold exec.
  destruct (check_rules (rules_for validationRules name) value)
    as [msg|e] eqn:Hchk.
  - by rewrite (validateField_ok _ _ _ _ h Hchk).
  - by rewrite (validateField_throw _ _ _ _ h Hchk).
Qed.

End validateField_more.

(** X1.  Validations of two different fields can run in either order:
    the [errors] map they leave is the same, whether or not one of them
    is rejected. *)
Theorem validateField_fields_commute (validationRules : ValidationRules)
  (a b : string) (va vb : jsval) (h : Hook) :
  a <> b ->
  errors (exec (validateField validationRules b vb)
            (exec (validateField validationRules a va) h))
  = errors (exec (validateField validationRules a va)
              (exec (validateField validationRules b vb) h)).
Proof.
  intros Hne. rewrite !validateField_errors.
  destruct (check_rules (rules_for validationRules a) va),
           (check_rules (rules_for validationRules b) vb); try done.
  by apply insert_insert_ne.
Qed.

Lemma validateField_fields_commute_witness :
  errors (exec (validateField [("pin", pin_rules); ("age", age_rules)]
                  "age" (JNum (Int 17)))
            (exec (validateField [("pin", pin_rules); ("age", age_rules)]
                     "pin" (JStr "ab")) (mount ∅)))
  = errors (exec (validateField [("pin", pin_rules); ("age", age_rules)]
                    "pin" (JStr "ab"))
              (exec (validateField [("pin", pin_rules); ("age", age_rules)]
                       "age" (JNum (Int 17))) (mount ∅))).
Proof.
  apply (validateField_fields_commute [("pin", pin_rules); ("age", age_rules)]
           "pin" "age" (JStr "ab") (JNum (Int 17)) (mount ∅)).
  discriminate.
Defined.

(** X2.  A validation that returns overwrites the field's entry: what an
    earlier validation of the same field wrote, or failed to write, has
    no part in the [errors] map it leaves. *)
Theorem validateField_last_write_wins (validationRules : ValidationRules)
  (name : string) (v1 v2 : jsval) (h : Hook) :
  fst (validateField validationRules name v2 h) = Ok tt ->
  errors (exec (validateField validationRules name v2)
            (exec (validateField validationRules name v1) h))
  = errors (exec (validateField validationRules name v2) h).
Proof.
  rewrite validateField_outcome, !validateField_errors.
  destruct (check_rules (rules_for validationRules name) v2); [|done].
  intros _.
  destruct (check_rules (rules_for validationRules name) v1); [|done].
  apply insert_insert_eq.
Qed.

Lemma validateField_last_write_wins_witness :
  errors (exec (validateField [("age", age_rules)] "age" (JNum (Int 18)))
            (exec (validateField [("age", age_rules)] "age" (JNum (Int 17)))
               (mount ∅)))
  = errors (exec (validateField [("age", age_rules)] "age" (JNum (Int 18)))
              (mount ∅)).
Proof.
  apply (validateField_last_write_wins [("age", age_rules)] "age"
           (JNum (Int 17)) (JNum (Int 18)) (mount ∅)).
  reflexivity.
Defined.

(** The chain on a value without a length does not see the length rules. *)
Lemma check_rules_lengthless (rules : ValidationRule) (value : jsval) :
  lengthless value = true ->
  check_rules (Some rules) value
  = check_rules (Some (without_length_rules rules)) value.
Proof.
  intros Hv. unfold check_rules, required_fails, has_required,
    minLength_fails, maxLength_fails, pattern_fails. cbn.
  assert (Hlen : get_length value = Ok None)
    by (destruct value; try discriminate; reflexivity).
  rewrite Hlen. unfold_monad.
  destruct (match required rules with Some _ => _ | None => _ end && _);
    [done|].
  by destruct (minLength rules), (maxLength rules).
Qed.

(** X3.  On a boolean, a number or a plain object the minLength and
    maxLength rules are never enforced, whatever their bounds:
    [validateField] does what it does under a rule set that gives the
    field the same rules without the two length rules. *)
Theorem validateField_lengthless_skips_length_rules
  (validationRules validationRules' : ValidationRules) (name : string)
  (rules : ValidationRule) (value : jsval) (h : Hook) :
  rules_for validationRules name = Some rules ->
  rules_for validationRules' name = Some (without_length_rules rules) ->
  lengthless value = true ->
  validateField validationRules name value h
  = validateField validationRules' name value h.
Proof.
  intros Hrules Hrules' Hv. unfold validateField.
  rewrite Hrules, Hrules'.
  by rewrite (check_rules_lengthless rules value Hv).
Qed.

Lemma validateField_lengthless_skips_length_rules_witness :
  validateField [("pin", pin_rules)] "pin" (JNum (Int 7)) (mount ∅)
  = validateField [("pin", without_length_rules pin_rules)]
      "pin" (JNum (Int 7)) (mount ∅).
Proof.
  apply (validateField_lengthless_skips_length_rules [("pin", pin_rules)]
           [("pin", without_length_rules pin_rules)]
           "pin" pin_rules (JNum (Int 7)) (mount ∅)); reflexivity.
Defined.

(** ** Further properties of validateForm and handleSubmit *)

Section validateForm_more.

Variable validationRules : ValidationRules.
Variable vals : gmap string jsval.

(** A loop that returns has evaluated every one of its fields without a
    raise. *)
Lemma validateForm_loop_returns (names : list string)
  (acc newErrors : gmap string string) :
  validateForm_loop validationRules names vals acc = Ok newErrors ->
  forall name, name ∈ names ->
    exists msg, field_reports validationRules vals name msg.
Proof.
  revert acc. induction names as [|n rest IH]; intros acc Hloop name Hin.
  - by apply elem_of_nil in Hin.
  - cbn [validateForm_loop] in Hloop.
    unfold mbind, result_bind in Hloop.
    destruct (check_rules (rules_for validationRules n) (get_value vals n))
      as [m|e] eqn:Hchk; [|discriminate].
    apply elem_of_cons in Hin as [->|Hin].
    + exists m. by apply check_rules_reports.
    + by apply (IH _ Hloop).
Qed.

(** The loop from the empty map, by field. *)
Lemma validateForm_loop_lookup (newErrors : gmap string string)
  (name : string) (msg : string) :
  validateForm_loop validationRules (map fst validationRules) vals ∅
  = Ok newErrors ->
  name ∈ map fst validationRules ->
  field_reports validationRules vals name msg ->
  newErrors !! name = if String.eqb msg "" then None else Some msg.
Proof.
  intros Hloop Hin Hmsg.
  destruct (validateForm_loop_ok validationRules vals
              (map fst validationRules) ∅) as (res & Hres & Hlook).
  { by apply (validateForm_loop_returns _ _ _ Hloop). }
  { intros n m. by rewrite lookup_empty. }
  assert (res = newErrors) as -> by congruence.
  destruct (String.eqb_spec msg "") as [->|Hne].
  - destruct (newErrors !! name) as [m|] eqn:Hm; [|done].
    apply Hlook in Hm as [(_ & Hne & Hrep)|Hm].
    + destruct Hne. exact (reports_functional _ _ _ _ Hrep Hmsg).
    + by rewrite lookup_empty in Hm.
  - apply Hlook. left. done.
Qed.

End validateForm_more.

(** X4.  The two copies of the rule chain agree on what the adapter
    shows: when [validateForm values] returns, then for every field of
    the rule set [validateField] on that field's value returns too, and
    the error rendered for the field is the same after either call. *)
Theorem validateForm_agrees_with_validateField
  (validationRules : ValidationRules) (vals : gmap string jsval)
  (props : FormFieldProps) (h h' : Hook) (valid : bool) :
  field_name props ∈ map fst validationRules ->
  fst (validateForm validationRules vals h) = Ok valid ->
  fst (validateField validationRules (field_name props)
         (get_value vals (field_name props)) h') = Ok tt /\
  render_error (errors (exec (validateForm validationRules vals) h)) props
  = render_error
      (errors (exec (validateField validationRules (field_name props)
                       (get_value vals (field_name props))) h')) props.
Proof.
  intros Hin. unfold exec. rewrite validateForm_unfold.
  destruct (validateForm_loop validationRules (map fst validationRules) vals ∅)
    as [newErrors|e] eqn:Hloop; [|discriminate].
  intros _.
  destruct (validateForm_loop_returns _ _ _ _ _ Hloop _ Hin) as [msg Hmsg].
  pose proof (validateForm_loop_lookup _ _ _ _ _ Hloop Hin Hmsg) as Hlook.
  pose proof (reports_check_rules _ _ _ Hmsg) as Hchk.
  rewrite (validateField_ok _ _ _ _ h' Hchk). split; [done|].
  unfold render_error. cbn. rewrite Hlook, lookup_insert_eq.
  destruct (String.eqb msg "") eqn:Hempty; [done|]. by rewrite Hempty.
Qed.

Lemma validateForm_agrees_with_validateField_witness :
  let props := {| field_name := "age"; field_value := JNum (Int 17);
                  onChange := fun _ => Ok tt; showErrorInline := false;
                  customErrorComponent := Primitive JUndefined |} in
  let vals : gmap string jsval := {["age" := JNum (Int 17)]} in
  fst (validateField [("age", age_rules)] "age" (get_value vals "age")
         (mount ∅)) = Ok tt /\
  render_error (errors (exec (validateForm [("age", age_rules)] vals)
                          (mount ∅))) props
  = render_error
      (errors (exec (validateField [("age", age_rules)] "age"
                       (get_value vals "age")) (mount ∅))) props.
Proof.
  intros props vals.
  apply (validateForm_agrees_with_validateField [("age", age_rules)] vals
           props (mount ∅) (mount ∅) false).
  - apply list_elem_of_singleton. reflexivity.
  - reflexivity.
Defined.

(** X5.  When [validateForm] finds the current values valid and the
    callback returns, the handler calls the callback exactly once, with
    exactly the values it validated, and leaves [errors] empty, [values]
    as they were and both flags false. *)
Theorem handleSubmit_valid_calls_back (validationRules : ValidationRules)
  (callback : gmap string jsval -> result unit) (h : Hook) :
  fst (validateForm validationRules (values h) h) = Ok true ->
  callback (values h) = Ok tt ->
  fst (handleSubmit validationRules callback h) = Ok tt /\
  trace (exec (handleSubmit validationRules callback) h)
  = (trace h ++ [PreventDefault; SubmitCallback (values h)])%list /\
  errors (exec (handleSubmit validationRules callback) h) = ∅ /\
  values (exec (handleSubmit validationRules callback) h) = values h /\
  isSubmitting (exec (handleSubmit validationRules callback) h) = false /\
  isValidating (exec (handleSubmit validationRules callback) h) = false.
Proof.
  intros Hvalid Hcb. unfold exec. rewrite handleSubmit_unfold. cbv zeta.
  rewrite validateForm_unfold in Hvalid |- *.
  destruct (validateForm_loop validationRules (map fst validationRules)
              (values h) ∅) as [newErrors|e]; [|discriminate].
  cbn in Hvalid. injection Hvalid as Hsize.
  apply Nat.eqb_eq, map_size_empty_iff in Hsize. subst newErrors.
  rewrite map_size_empty. cbn. rewrite Hcb. cbn.
  repeat split. by rewrite <- app_assoc.
Qed.

Lemma handleSubmit_valid_calls_back_witness :
  let h := with_values (fun _ => {["age" := JNum (Int 21)]}) (mount ∅) in
  fst (handleSubmit [("age", age_rules)] accept h) = Ok tt /\
  trace (exec (handleSubmit [("age", age_rules)] accept) h)
  = (trace h ++ [PreventDefault; SubmitCallback (values h)])%list /\
  errors (exec (handleSubmit [("age", age_rules)] accept) h) = ∅ /\
  values (exec (handleSubmit [("age", age_rules)] accept) h) = values h /\
  isSubmitting (exec (handleSubmit [("age", age_rules)] accept) h) = false /\
  isValidating (exec (handleSubmit [("age", age_rules)] accept) h) = false.
Proof.
  intros h.
  apply (handleSubmit_valid_calls_back [("age", age_rules)] accept h);
    reflexivity.
Defined.

(** ** Further properties of the debounced validation *)

Section debounce_more.

Variable validationRules : ValidationRules.
Variable debounceTime : nat.

(** The state the armed validation leaves when it fires. *)
Lemma advance_due_state (name : string) (value : jsval) (dt : nat)
  (h : Hook) :
  armed debounceTime name value h -> debounceTime <= dt ->
  errors (advance validationRules dt h)
  = match check_rules (rules_for validationRules name) value with
    | Ok msg => <[name := msg]> (errors h)
    | Throw _ => errors h
    end /\
  values (advance validationRules dt h) = values h /\
  trace (advance validationRules dt h)
  = (trace h ++ [FieldValidation name value])%list /\
  timers (advance validationRules dt h) = [].
Proof.
  intros Harmed Hle.
  rewrite (advance_due validationRules debounceTime name value) by done.
  rewrite validateField_errors.
  destruct (validateField_frame validationRules name value
              (with_timers [] (with_clock (clock h + dt) h)))
    as (Hvalues & _ & _ & _ & _ & Htimers).
  destruct (validateField_exec validationRules name value
              (with_timers [] (with_clock (clock h + dt) h)))
    as (f & Hexec & _).
  split; [done|]. split; [exact Hvalues|]. split; [|exact Htimers].
  by rewrite Hexec.
Qed.

End debounce_more.

(** X6.  [handleChange] merges the value into [values] at once and
    leaves [errors] alone; as long as less than the delay has passed
    [errors] is still untouched, and once the delay has passed the
    field's entry holds the verdict on that value.  The call is made on
    a hook with no timeout pending but the one [debounceTimer] refers
    to, as is every state the hook reaches. *)
Theorem handleChange_validates_after_delay (validationRules : ValidationRules)
  (debounceTime : nat) (name : string) (value : jsval) (msg : string)
  (early late : nat) (h : Hook) :
  tidy h ->
  early < debounceTime -> debounceTime <= late ->
  reports (rules_for validationRules name) value msg ->
  let changed := exec (handleChange debounceTime name value) h in
  values changed = <[name := value]> (values h) /\
  errors changed = errors h /\
  errors (advance validationRules early changed) = errors h /\
  errors (advance validationRules late changed) = <[name := msg]> (errors h) /\
  values (advance validationRules late changed) = <[name := value]> (values h).
Proof.
  intros Htidy Hearly Hlate Hmsg changed.
  pose proof (handleChange_armed debounceTime name value h Htidy) as Harmed.
  fold changed in Harmed.
  destruct (handleChange_cells debounceTime name value h)
    as (Hcv & Hce & _).
  fold changed in Hcv, Hce.
  destruct (advance_due_state validationRules debounceTime name value late
              changed Harmed Hlate) as (Herrors & Hvalues & _).
  rewrite (reports_check_rules _ _ _ Hmsg) in Herrors.
  rewrite (advance_early validationRules debounceTime name value early changed)
    by done.
  rewrite Herrors, Hvalues, Hce, Hcv. by repeat split.
Qed.

Lemma handleChange_validates_after_delay_witness :
  let changed := exec (handleChange 300 "age" (JNum (Int 17))) (mount ∅) in
  values changed = <[ "age" := JNum (Int 17) ]> (values (mount ∅)) /\
  errors changed = errors (mount ∅) /\
  errors (advance [("age", age_rules)] 299 changed) = errors (mount ∅) /\
  errors (advance [("age", age_rules)] 300 changed)
  = <[ "age" := "You must be at least 18 years old" ]> (errors (mount ∅)) /\
  values (advance [("age", age_rules)] 300 changed)
  = <[ "age" := JNum (Int 17) ]> (values (mount ∅)).
Proof.
  apply (handleChange_validates_after_delay [("age", age_rules)] 300 "age"
           (JNum (Int 17)) "You must be at least 18 years old" 299 300
           (mount ∅)).
  - exact I.
  - lia.
  - lia.
  - apply check_rules_reports. reflexivity.
Defined.

(** X7.  Two [handleChange] calls that are at least the delay apart are
    not collapsed: each is validated, in the order of the calls.  The
    first call is made on a hook with no timeout pending but the one
    [debounceTimer] refers to, as is every state the hook reaches. *)
Theorem handleChange_spaced_calls_both_validate
  (validationRules : ValidationRules) (debounceTime : nat)
  (n1 n2 : string) (v1 v2 : jsval) (d1 d2 : nat) (h : Hook) :
  tidy h ->
  debounceTime <= d1 -> debounceTime <= d2 ->
  trace (advance validationRules d2
           (exec (handleChange debounceTime n2 v2)
              (advance validationRules d1
                 (exec (handleChange debounceTime n1 v1) h))))
  = (trace h ++ [FieldValidation n1 v1; FieldValidation n2 v2])%list.
Proof.
  intros Htidy Hd1 Hd2.
  destruct (advance_due_state validationRules debounceTime n1 v1 d1 _
              (handleChange_armed debounceTime n1 v1 h Htidy) Hd1)
    as (_ & _ & Ht1 & Hnone).
  assert (Htidy1 : tidy (advance validationRules d1
                           (exec (handleChange debounceTime n1 v1) h)))
    by (unfold tidy; by rewrite Hnone).
  destruct (advance_due_state validationRules debounceTime n2 v2 d2 _
              (handleChange_armed debounceTime n2 v2 _ Htidy1) Hd2)
    as (_ & _ & Ht2 & _).
  rewrite Ht2.
  rewrite (proj1 (proj2 (proj2 (handleChange_cells debounceTime n2 v2 _)))).
  rewrite Ht1.
  rewrite (proj1 (proj2 (proj2 (handleChange_cells debounceTime n1 v1 _)))).
  by rewrite <- app_assoc.
Qed.

Lemma handleChange_spaced_calls_both_validate_witness :
  trace (advance [("age", age_rules)] 300
           (exec (handleChange 300 "age" (JNum (Int 18)))
              (advance [("age", age_rules)] 300
                 (exec (handleChange 300 "age" (JNum (Int 17))) (mount ∅)))))
  = (trace (mount ∅)
     ++ [FieldValidation "age" (JNum (Int 17));
         FieldValidation "age" (JNum (Int 18))])%list.
Proof.
  apply (handleChange_spaced_calls_both_validate [("age", age_rules)] 300
           "age" "age" (JNum (Int 17)) (JNum (Int 18)) 300 300 (mount ∅));
    [exact I | lia ..].
Defined.

(** X8.  [resetForm] does not cancel the pending debounced validation:
    when it is called with a validation armed, that validation still
    fires once the delay has passed, on the value typed before the
    reset, and its verdict is then the one entry of [errors], while
    [values] are the initial ones. *)
Theorem resetForm_keeps_pending_validation (initialValues : gmap string jsval)
  (validationRules : ValidationRules) (debounceTime : nat) (name : string)
  (value : jsval) (msg : string) (dt : nat) (h : Hook) :
  armed debounceTime name value h -> debounceTime <= dt ->
  reports (rules_for validationRules name) value msg ->
  let later := advance validationRules dt (exec (resetForm initialValues) h) in
  errors later = {[ name := msg ]} /\
  values later = initialValues /\
  trace later = (trace h ++ [FieldValidation name value])%list.
Proof.
  intros Harmed Hle Hmsg later.
  assert (Harmed' :
    armed debounceTime name value (exec (resetForm initialValues) h))
    by exact Harmed.
  destruct (advance_due_state validationRules debounceTime name value dt _
              Harmed' Hle) as (Herrors & Hvalues & Htrace & _).
  rewrite (reports_check_rules _ _ _ Hmsg) in Herrors.
  subst later. rewrite Herrors, Hvalues, Htrace. by repeat split.
Qed.

Lemma resetForm_keeps_pending_validation_witness :
  let typed := exec (handleChange 300 "age" (JNum (Int 17))) (mount ∅) in
  let later :=
    advance [("age", age_rules)] 300 (exec (resetForm ∅) typed) in
  armed 300 "age" (JNum (Int 17)) typed /\
  errors later = {[ "age" := "You must be at least 18 years old" ]} /\
  values later = ∅ /\
  trace later
  = (trace typed ++ [FieldValidation "age" (JNum (Int 17))])%list.
Proof.
  intros typed later.
  assert (Harmed : armed 300 "age" (JNum (Int 17)) typed)
    by (exists 0; split; reflexivity).
  split; [exact Harmed|].
  apply (resetForm_keeps_pending_validation ∅ [("age", age_rules)] 300 "age"
           (JNum (Int 17)) "You must be at least 18 years old" 300 typed
           Harmed).
  - lia.
  - apply check_rules_reports. reflexivity.
Defined.

(** X9.  A change event on the wrapped component goes to the caller's
    [onChange] first.  If that throws, the hook never sees the event:
    nothing is merged and nothing is scheduled.  If it returns, the
    event's value is merged into [values] under the field's name and,
    once the delay has passed, the adapter renders nothing when the value
    passes, and otherwise the custom node if one is given, else the
    first failing message, inline or as a block.  The event arrives on a
    hook with no timeout pending but the one [debounceTimer] refers to,
    as is every state the hook reaches. *)
Theorem adapter_change_renders_verdict (validationRules : ValidationRules)
  (debounceTime : nat) (props : FormFieldProps) (e : ChangeEvent)
  (msg : string) (dt : nat) (h : Hook) :
  tidy h ->
  debounceTime <= dt ->
  reports (rules_for validationRules (field_name props)) (target_value e)
    msg ->
  match onChange props e with
  | Throw x =>
      handleComponentChange debounceTime props e h = (Throw x, h)
  | Ok _ =>
      let later :=
        advance validationRules dt
          (exec (handleComponentChange debounceTime props e) h) in
      values later !! field_name props = Some (target_value e) /\
      render_error (errors later) props
      = if String.eqb msg "" then None
        else if truthy_node (customErrorComponent props)
             then Some (CustomError (customErrorComponent props))
             else if showErrorInline props
                  then Some (InlineError msg)
                  else Some (BlockError msg)
  end.
Proof.
  intros Htidy Hle Hmsg.
  destruct (onChange props e) as [[]|x] eqn:Hon.
  - assert (Hexec : exec (handleComponentChange debounceTime props e) h
              = exec (handleChange debounceTime (field_name props)
                        (target_value e)) h).
    { unfold exec, handleComponentChange. unfold mbind, M_bind, lift.
      by rewrite Hon. }
    cbv zeta. rewrite Hexec.
    destruct (advance_due_state validationRules debounceTime
                (field_name props) (target_value e) dt _
                (handleChange_armed debounceTime (field_name props)
                   (target_value e) h Htidy) Hle) as (Herrors & Hvalues & _).
    rewrite (reports_check_rules _ _ _ Hmsg) in Herrors.
    rewrite Herrors, Hvalues. split.
    + rewrite (proj1 (handleChange_cells debounceTime _ _ h)).
      apply lookup_insert_eq.
    + unfold render_error. by rewrite lookup_insert_eq.
  - unfold handleComponentChange. unfold mbind, M_bind, lift.
    by rewrite Hon.
Qed.

Lemma adapter_change_renders_verdict_witness :
  let props := {| field_name := "age"; field_value := JNum (Int 0);
                  onChange := fun _ => Ok tt; showErrorInline := true;
                  customErrorComponent := Primitive JUndefined |} in
  let later :=
    advance [("age", age_rules)] 300
      (exec (handleComponentChange 300 props
               {| target_value := JNum (Int 17) |}) (mount ∅)) in
  values later !! "age" = Some (JNum (Int 17)) /\
  render_error (errors later) props
  = Some (InlineError "You must be at least 18 years old").
Proof.
  intros props.
  apply (adapter_change_renders_verdict [("age", age_rules)] 300 props
           {| target_value := JNum (Int 17) |}
           "You must be at least 18 years old" 300 (mount ∅)).
  - exact I.
  - lia.
  - apply check_rules_reports. reflexivity.
Defined.

(** ** Invariants over sequences of calls *)

Section handleSubmit_more.

Variable validationRules : ValidationRules.
Variable callback : gmap string jsval -> result unit.

(** The state cells the handler leaves, by the outcome of the loop and
    of the callback. *)
Lemma handleSubmit_cells (h : Hook) :
  let h' := exec (handleSubmit validationRules callback) h in
  values h' = values h /\
  debounceTimer h' = debounceTimer h /\
  errors h'
  = match validateForm_loop validationRules (map fst validationRules)
            (values h) ∅ with
    | Ok newErrors => newErrors
    | Throw _ => errors h
    end /\
  (fst (handleSubmit validationRules callback h) = Ok tt ->
   isSubmitting h' = false /\ isValidating h' = false) /\
  (fst (handleSubmit validationRules callback h) <> Ok tt ->
   isSubmitting h' = true).
Proof.
  unfold exec. rewrite handleSubmit_unfold. cbv zeta.
  rewrite validateForm_unfold.
  destruct (validateForm_loop validationRules (map fst validationRules)
              (values h) ∅) as [newErrors|e]; cbn.
  - destruct (Nat.eqb (size newErrors) 0); cbn.
    + destruct (callback (values h)) as [[]|e]; cbn; by repeat split.
    + by repeat split.
  - by repeat split.
Qed.

End handleSubmit_more.

Section run_facts.

Variable initialValues : gmap string jsval.
Variable validationRules : ValidationRules.
Variable debounceTime : nat.

(** The timeouts that fire leave everything but [errors] and [trace]. *)
Lemma fire_all_cells (due : list timeout) (h : Hook) :
  values (fire_all validationRules due h) = values h /\
  isSubmitting (fire_all validationRules due h) = isSubmitting h /\
  isValidating (fire_all validationRules due h) = isValidating h /\
  debounceTimer (fire_all validationRules due h) = debounceTimer h /\
  timers (fire_all validationRules due h) = timers h.
Proof.
  revert h. induction due as [|t rest IH]; intros h; [done|].
  cbn [fire_all fold_left].
  destruct (IH (fire validationRules t h)) as (Hv & Hs & Hi & Hd & Ht).
  unfold fire_all in *. rewrite Hv, Hs, Hi, Hd, Ht. unfold fire.
  destruct (validateField_frame validationRules (timeout_args t).1
              (timeout_args t).2 h) as (Hv' & Hs' & Hi' & Hd' & _ & Ht').
  by repeat split.
Qed.

Lemma advance_cells (dt : nat) (h : Hook) :
  values (advance validationRules dt h) = values h /\
  isSubmitting (advance validationRules dt h) = isSubmitting h /\
  isValidating (advance validationRules dt h) = isValidating h.
Proof.
  unfold advance.
  destruct (fire_all_cells
              (by_deadline (List.filter (is_due (clock h + dt)) (timers h)))
              (with_timers
                 (List.filter (fun t => negb (is_due (clock h + dt) t))
                    (timers h))
                 (with_clock (clock h + dt) h))) as (Hv & Hs & Hi & _).
  by rewrite Hv, Hs, Hi.
Qed.

(** What one call does to [values]. *)
Lemma perform_values (a : action) (h : Hook) :
  values (exec (perform initialValues validationRules debounceTime a) h)
  = match a with
    | Change name value => <[name := value]> (values h)
    | Reset => initialValues
    | _ => values h
    end.
Proof.
  destruct a as [name value|name value|callback| |dt]; try reflexivity.
  - by destruct (handleChange_cells debounceTime name value h).
  - by destruct (validateField_frame validationRules name value h).
  - by destruct (handleSubmit_cells validationRules callback h).
  - by destruct (advance_cells dt h).
Qed.

(** What one call other than a submit does to the flags. *)
Lemma perform_flags (a : action) (h : Hook) :
  is_submit a = false ->
  isSubmitting (exec (perform initialValues validationRules debounceTime a) h) = isSubmitting h /\
  isValidating (exec (perform initialValues validationRules debounceTime a) h) = isValidating h.
Proof.
  destruct a as [name value|name value|callback| |dt]; intros Ha;
    try discriminate; try (split; reflexivity).
  - destruct (handleChange_cells debounceTime name value h)
      as (_ & _ & _ & Hs & Hi). exact (conj Hs Hi).
  - destruct (validateField_frame validationRules name value h)
      as (_ & Hs & Hi & _). exact (conj Hs Hi).
  - destruct (advance_cells dt h) as (_ & Hs & Hi). exact (conj Hs Hi).
Qed.

Lemma check_rules_configured (name : string) (value : jsval) (msg : string) :
  check_rules (rules_for validationRules name) value = Ok msg ->
  msg <> "" ->
  exists rules c,
    rules_for validationRules name = Some rules /\ message rules c = msg.
Proof.
  intros Hchk Hne. apply check_rules_reports in Hchk.
  inversion Hchk; subst; try done. eauto.
Qed.

Lemma validateField_configured (name : string) (value : jsval) (h : Hook) :
  configured validationRules (errors h) ->
  configured validationRules
    (errors (exec (validateField validationRules name value) h)).
Proof.
  intros Hh. rewrite validateField_errors.
  destruct (check_rules (rules_for validationRules name) value)
    as [msg|e] eqn:Hchk; [|done].
  intros n m. destruct (decide (name = n)) as [<-|Hne].
  - rewrite lookup_insert_eq. intros [= <-].
    by apply (check_rules_configured name value).
  - rewrite lookup_insert_ne by done. apply Hh.
Qed.

Lemma fire_all_configured (due : list timeout) (h : Hook) :
  configured validationRules (errors h) ->
  configured validationRules (errors (fire_all validationRules due h)).
Proof.
  revert h. induction due as [|t rest IH]; intros h Hh; [done|].
  cbn [fire_all fold_left]. apply IH.
  by apply (validateField_configured (timeout_args t).1 (timeout_args t).2).
Qed.

Lemma perform_configured (a : action) (h : Hook) :
  configured validationRules (errors h) ->
  configured validationRules
    (errors (exec (perform initialValues validationRules debounceTime a) h)).
Proof.
  intros Hh. destruct a as [name value|name value|callback| |dt].
  - destruct (handleChange_cells debounceTime name value h)
      as (_ & Herrors & _).
    change (configured validationRules
              (errors (exec (handleChange debounceTime name value) h))).
    by rewrite Herrors.
  - by apply validateField_configured.
  - destruct (handleSubmit_cells validationRules callback h)
      as (_ & _ & Herrors & _).
    change (configured validationRules
              (errors (exec (handleSubmit validationRules callback) h))).
    rewrite Herrors. clear Herrors.
    destruct (validateForm_loop validationRules (map fst validationRules)
                (values h) ∅) as [newErrors|e] eqn:Hloop; [|done].
    intros n m Hn Hm.
    destruct (validateForm_loop_ok validationRules (values h)
                (map fst validationRules) ∅) as (res & Hres & Hlook).
    { by apply (validateForm_loop_returns _ _ _ _ _ Hloop). }
    { intros ? ?. by rewrite lookup_empty. }
    assert (res = newErrors) as -> by congruence.
    apply Hlook in Hn as [(_ & _ & Hrep)|Hn];
      [|by rewrite lookup_empty in Hn].
    apply reports_check_rules in Hrep.
    by apply (check_rules_configured n (get_value (values h) n)).
  - change (configured validationRules ∅).
    intros n m Hn. by rewrite lookup_empty in Hn.
  - change (configured validationRules
              (errors (advance validationRules dt h))).
    unfold advance. by apply fire_all_configured.
Qed.

End run_facts.

(** X10.  Every key of [initialValues] has an entry in [values] after
    any sequence of changes, validations, submits, resets and waits on a
    freshly mounted hook. *)
Theorem run_keeps_initial_keys (initialValues : gmap string jsval)
  (validationRules : ValidationRules) (debounceTime : nat)
  (acts : list action) (name : string) :
  is_Some (initialValues !! name) ->
  is_Some (values (run initialValues validationRules debounceTime acts
                     (mount initialValues)) !! name).
Proof.
  intros Hinit.
  assert (Hgen : forall h, is_Some (values h !! name) ->
    is_Some (values (run initialValues validationRules debounceTime acts h)
               !! name)).
  { induction acts as [|a rest IH]; intros h Hh; [exact Hh|].
    cbn [run]. apply IH. rewrite perform_values.
    destruct a as [n v|n v|callback| |dt]; try done.
    destruct (decide (n = name)) as [->|Hne].
    - rewrite lookup_insert_eq. eauto.
    - by rewrite lookup_insert_ne. }
  by apply Hgen.
Qed.

Lemma run_keeps_initial_keys_witness :
  is_Some (values (run {["age" := JNum (Int 0)]} [("age", age_rules)] 300
                     [Change "pin" (JStr "ab"); Wait 300; Submit refuse;
                      Reset; Change "age" (JNum (Int 17))]
                     (mount {["age" := JNum (Int 0)]})) !! "age").
Proof.
  apply (run_keeps_initial_keys {["age" := JNum (Int 0)]}
           [("age", age_rules)] 300).
  exists (JNum (Int 0)). reflexivity.
Defined.

(** X11.  Only [handleChange] and [resetForm] write [values]: after any
    sequence of calls [values] is what its changes and resets alone give,
    whatever the rules, the outcomes of the validations and submits, and
    the time that passed. *)
Theorem run_values_replay (initialValues : gmap string jsval)
  (validationRules : ValidationRules) (debounceTime : nat)
  (acts : list action) (h : Hook) :
  values (run initialValues validationRules debounceTime acts h)
  = replay initialValues acts (values h).
Proof.
  revert h. induction acts as [|a rest IH]; intros h; [done|].
  cbn [run]. rewrite IH, perform_values. by destruct a.
Qed.

(** X12.  The hook never invents a message: after any sequence of calls
    on a freshly mounted hook, every non-empty message in [errors] is a
    message the rule set configures for the field it is recorded under. *)
Theorem run_messages_configured (initialValues : gmap string jsval)
  (validationRules : ValidationRules) (debounceTime : nat)
  (acts : list action) (name msg : string) :
  errors (run initialValues validationRules debounceTime acts
            (mount initialValues)) !! name = Some msg ->
  msg <> "" ->
  exists rules c,
    rules_for validationRules name = Some rules /\ message rules c = msg.
Proof.
  assert (Hgen : forall h, configured validationRules (errors h) ->
    configured validationRules
      (errors (run initialValues validationRules debounceTime acts h))).
  { induction acts as [|a rest IH]; intros h Hh; [exact Hh|].
    cbn [run]. by apply IH, perform_configured. }
  apply Hgen. intros n m Hn. cbn in Hn. by rewrite lookup_empty in Hn.
Qed.

Lemma run_messages_configured_witness :
  exists rules c,
    rules_for [("age", age_rules)] "age" = Some rules /\
    message rules c = "You must be at least 18 years old".
Proof.
  apply (run_messages_configured ∅ [("age", age_rules)] 300
           [Change "age" (JNum (Int 17)); Wait 300] "age"
           "You must be at least 18 years old").
  - reflexivity.
  - discriminate.
Defined.

(** X13.  As long as no call is rejected, both flags are false whenever
    the hook is at rest: after any sequence of calls on a freshly mounted
    hook in which every call returned, [isSubmitting] and [isValidating]
    are false. *)
Theorem run_flags_at_rest (initialValues : gmap string jsval)
  (validationRules : ValidationRules) (debounceTime : nat)
  (acts : list action) :
  all_return initialValues validationRules debounceTime acts
    (mount initialValues) ->
  isSubmitting (run initialValues validationRules debounceTime acts
                  (mount initialValues)) = false /\
  isValidating (run initialValues validationRules debounceTime acts
                  (mount initialValues)) = false.
Proof.
  assert (Hgen : forall h,
    all_return initialValues validationRules debounceTime acts h ->
    isSubmitting h = false /\ isValidating h = false ->
    isSubmitting (run initialValues validationRules debounceTime acts h)
    = false /\
    isValidating (run initialValues validationRules debounceTime acts h)
    = false).
  { induction acts as [|a rest IH]; intros h Hret Hh; [exact Hh|].
    destruct Hret as [Ha Hrest]. cbn [run]. apply IH; [exact Hrest|].
    destruct (is_submit a) eqn:Hsub.
    - destruct a as [| |callback| |]; try discriminate.
      destruct (handleSubmit_cells validationRules callback h)
        as (_ & _ & _ & Hok & _).
      exact (Hok Ha).
    - destruct (perform_flags initialValues validationRules debounceTime
                  a h Hsub) as [Hs Hv].
      destruct Hh. split; congruence. }
  intros Hret. by apply Hgen.
Qed.

Lemma run_flags_at_rest_witness :
  let acts := [Change "age" (JNum (Int 17)); Wait 300; Submit accept;
               Change "age" (JNum (Int 21)); Submit accept; Reset] in
  all_return ∅ [("age", age_rules)] 300 acts (mount ∅) /\
  isSubmitting (run ∅ [("age", age_rules)] 300 acts (mount ∅)) = false /\
  isValidating (run ∅ [("age", age_rules)] 300 acts (mount ∅)) = false.
Proof.
  intros acts.
  assert (Hret : all_return ∅ [("age", age_rules)] 300 acts (mount ∅))
    by (repeat split; reflexivity).
  split; [exact Hret|].
  exact (run_flags_at_rest ∅ [("age", age_rules)] 300 acts Hret).
Defined.

(** X14.  A rejected submit leaves [isSubmitting] true, and no change,
    field validation, reset or wait clears it: it stays true through any
    sequence of calls that holds no further submit, and [isValidating]
    stays what the submit left it. *)
Theorem rejected_submit_sticks (initialValues : gmap string jsval)
  (validationRules : ValidationRules) (debounceTime : nat)
  (callback : gmap string jsval -> result unit) (acts : list action)
  (h : Hook) :
  fst (handleSubmit validationRules callback h) <> Ok tt ->
  forallb (fun a => negb (is_submit a)) acts = true ->
  isSubmitting (run initialValues validationRules debounceTime acts
                  (exec (handleSubmit validationRules callback) h)) = true /\
  isValidating (run initialValues validationRules debounceTime acts
                  (exec (handleSubmit validationRules callback) h))
  = isValidating (exec (handleSubmit validationRules callback) h).
Proof.
  intros Hrej Hacts.
  destruct (handleSubmit_cells validationRules callback h)
    as (_ & _ & _ & _ & Hstuck).
  specialize (Hstuck Hrej). cbv zeta in Hstuck.
  assert (Hframe : forall h',
    isSubmitting (run initialValues validationRules debounceTime acts h')
    = isSubmitting h' /\
    isValidating (run initialValues validationRules debounceTime acts h')
    = isValidating h').
  { induction acts as [|a rest IH]; intros h'; [done|].
    cbn [forallb] in Hacts. apply andb_true_iff in Hacts as [Ha Hrest].
    apply negb_true_iff in Ha. cbn [run].
    destruct (perform_flags initialValues validationRules debounceTime
                a h' Ha) as [Hs Hv].
    destruct (IH Hrest
                (exec (perform initialValues validationRules debounceTime a)
                   h')) as [IHs IHv].
    split; congruence. }
  destruct (Hframe (exec (handleSubmit validationRules callback) h))
    as [Hs Hv].
  split; congruence.
Qed.

Lemma rejected_submit_sticks_witness :
  let h := with_values (fun _ => {["age" := JNum (Int 21)]}) (mount ∅) in
  isSubmitting (run ∅ [("age", age_rules)] 300
                  [Reset; Change "age" (JNum (Int 30)); Wait 300;
                   Validate "age" (JNum (Int 30))]
                  (exec (handleSubmit [("age", age_rules)] refuse) h)) = true
  /\
  isValidating (run ∅ [("age", age_rules)] 300
                  [Reset; Change "age" (JNum (Int 30)); Wait 300;
                   Validate "age" (JNum (Int 30))]
                  (exec (handleSubmit [("age", age_rules)] refuse) h))
  = isValidating (exec (handleSubmit [("age", age_rules)] refuse) h).
Proof.
  intros h.
  apply (rejected_submit_sticks ∅ [("age", age_rules)] 300 refuse).
  - discriminate.
  - reflexivity.
Defined.

(** ** What validateForm reads, and what it leaves when it is rejected *)

Section validateForm_reads.

Variable validationRules : ValidationRules.

Lemma validateForm_loop_ext (names : list string)
  (vals vals' : gmap string jsval) (acc : gmap string string) :
  (forall name, name ∈ names -> get_value vals name = get_value vals' name) ->
  validateForm_loop validationRules names vals acc
  = validateForm_loop validationRules names vals' acc.
Proof.
  revert acc. induction names as [|n rest IH]; intros acc Hsame; [done|].
  cbn [validateForm_loop]. rewrite (Hsame n) by (by left).
  unfold mbind, result_bind.
  destruct (check_rules (rules_for validationRules n) (get_value vals' n));
    [|done].
  apply IH. intros name Hin. apply Hsame. by right.
Qed.

Lemma validateForm_loop_raises (pre post : list string) (name : string)
  (vals : gmap string jsval) (acc : gmap string string) (e : exn) :
  (forall n, n ∈ pre -> exists msg, field_reports validationRules vals n msg) ->
  check_rules (rules_for validationRules name) (get_value vals name)
  = Throw e ->
  validateForm_loop validationRules (pre ++ name :: post) vals acc = Throw e.
Proof.
  revert acc. induction pre as [|n rest IH]; intros acc Hpre Hname.
  - cbn [app validateForm_loop]. unfold mbind, result_bind. by rewrite Hname.
  - destruct (Hpre n) as [m Hm]; [by left|].
    apply reports_check_rules in Hm.
    cbn [app validateForm_loop]. unfold mbind, result_bind. rewrite Hm.
    apply IH; [|exact Hname]. intros k Hk. apply Hpre. by right.
Qed.

End validateForm_reads.

(** X15.  [validateForm] reads no entry of [values] but those of the
    fields of the rule set, and a missing entry reads like one that
    holds [undefined]: two values maps that read the same on every field
    of the rule set give the same verdict and the same state. *)
Theorem validateForm_reads_rule_fields_only
  (validationRules : ValidationRules) (vals vals' : gmap string jsval)
  (h : Hook) :
  (forall name, name ∈ map fst validationRules ->
     get_value vals name = get_value vals' name) ->
  validateForm validationRules vals h = validateForm validationRules vals' h.
Proof.
  intros Hsame. rewrite !validateForm_unfold.
  by rewrite (validateForm_loop_ext validationRules _ vals vals' ∅ Hsame).
Qed.

Lemma validateForm_reads_rule_fields_only_witness :
  validateForm [("age", age_rules)]
    {["age" := JNum (Int 17); "note" := JStr "hello"]} (mount ∅)
  = validateForm [("age", age_rules)]
      {["age" := JNum (Int 17); "pin" := JUndefined]} (mount ∅).
Proof.
  apply (validateForm_reads_rule_fields_only [("age", age_rules)]
           {["age" := JNum (Int 17); "note" := JStr "hello"]}
           {["age" := JNum (Int 17); "pin" := JUndefined]} (mount ∅)).
  intros name Hin. apply list_elem_of_singleton in Hin as ->. reflexivity.
Defined.

(** X16.  [validateForm] updates [errors] all or nothing: when the
    evaluation of some field of the rule set raises, the fields before
    it having been evaluated without a raise, [validateForm] is rejected
    with that exception, [errors] keeps its old content, the failures
    found before the raise included, and [isValidating] is left true. *)
Theorem validateForm_first_raise_rejects (validationRules : ValidationRules)
  (vals : gmap string jsval) (pre post : list string) (name : string)
  (rules : ValidationRule) (e : exn) (h : Hook) :
  map fst validationRules = (pre ++ name :: post)%list ->
  (forall n, n ∈ pre -> exists msg, field_reports validationRules vals n msg) ->
  rules_for validationRules name = Some rules ->
  raises rules (get_value vals name) e ->
  validateForm validationRules vals h = (Throw e, with_isValidating true h).
Proof.
  intros Hnames Hpre Hrules Hraises.
  rewrite validateForm_unfold, Hnames.
  rewrite (validateForm_loop_raises validationRules pre post name vals ∅ e);
    [done|exact Hpre|].
  rewrite Hrules. by apply check_rules_raises.
Qed.

Lemma validateForm_first_raise_rejects_witness :
  let rules := [("age", age_rules); ("nickname", nickname_rules)] in
  let vals : gmap string jsval := {["age" := JNum (Int 17)]} in
  validateForm rules vals (mount ∅)
  = (Throw TypeError, with_isValidating true (mount ∅)).
Proof.
  intros rules vals.
  apply (validateForm_first_raise_rejects rules vals ["age"] [] "nickname"
           nickname_rules TypeError (mount ∅)).
  - reflexivity.
  - intros n Hn. apply list_elem_of_singleton in Hn as ->.
    exists "You must be at least 18 years old".
    apply check_rules_reports. reflexivity.
  - reflexivity.
  - exists MinLength. split; [reflexivity|].
    intros c' Hlt. destruct c'; simpl in Hlt; [reflexivity | lia ..].
Defined.

(** X17.  When validation of the current values returns, the handler
    leaves in [errors] exactly the fields of the rule set that fail on
    those values, each with its first failing message, whether the
    callback was skipped, returned or threw. *)
Theorem handleSubmit_leaves_failing_fields (validationRules : ValidationRules)
  (callback : gmap string jsval -> result unit) (h : Hook) :
  (forall name, name ∈ map fst validationRules ->
     exists msg, field_reports validationRules (values h) name msg) ->
  forall name msg,
    errors (exec (handleSubmit validationRules callback) h) !! name = Some msg
    <->
    name ∈ map fst validationRules /\ msg <> "" /\
    field_reports validationRules (values h) name msg.
Proof.
  intros Hall name msg.
  destruct (handleSubmit_cells validationRules callback h)
    as (_ & _ & Herrors & _).
  cbv zeta in Herrors. rewrite Herrors. clear Herrors.
  destruct (validateForm_loop_ok validationRules (values h)
              (map fst validationRules) ∅ Hall) as (res & Hres & Hlook).
  { intros n m. by rewrite lookup_empty. }
  rewrite Hres, Hlook, lookup_empty.
  split; [intros [H|H]; [exact H | discriminate H] | by left].
Qed.

Lemma handleSubmit_leaves_failing_fields_witness :
  let h := with_values (fun _ => {["age" := JNum (Int 17)]}) (mount ∅) in
  errors (exec (handleSubmit [("age", age_rules)] refuse) h) !! "age"
  = Some "You must be at least 18 years old"
  <->
  "age" ∈ map fst [("age", age_rules)] /\
  "You must be at least 18 years old" <> "" /\
  field_reports [("age", age_rules)] (values h) "age"
    "You must be at least 18 years old".
Proof.
  intros h.
  apply (handleSubmit_leaves_failing_fields [("age", age_rules)] refuse h).
  intros name Hin. apply list_elem_of_singleton in Hin as ->.
  exists "You must be at least 18 years old".
  apply check_rules_reports. reflexivity.
Defined.

(** ** The timeouts the hook keeps pending *)

Section tidy_facts.

Variable initialValues : gmap string jsval.
Variable validationRules : ValidationRules.
Variable debounceTime : nat.




End tidy_facts.

